(** * Simple Notes (App.js): a shallow embedding and its properties

    The application root of [src/notes_app_frontend/src/App.js] keeps a list
    of notes (plain JavaScript objects), a search query and two mode flags.
    This file embeds the handlers, the two storage effects, the derived
    [filtered] list and the transitions of the user interface, and states
    the properties of the specification over them.

    Conventions of the embedding.
    - A JavaScript string is the list of its UTF-16 code units ([jsstring]).
    - A JavaScript value is a [jsval]; objects are association lists in
      property order.
    - Code that may throw returns an [outcome]: [Ret] for a normal result,
      [Throw] for an exception, [Unmodelled] where the behaviour of the
      host depends on something the embedding leaves out (number
      formatting, object identity).
    - What the host gives to the program (clock readings, random numbers,
      the answer to a confirmation, [JSON.parse], [JSON.stringify],
      [String.prototype.toLowerCase]) is an input of the definitions.
      [HostJSON] and [toLowerCase_ascii] are instances of these inputs:
      JSON after ECMA-262 without numbers, and lower-casing of ASCII
      text. *)

From Stdlib Require Import String Ascii.
From Stdlib Require Import List NArith ZArith Bool Lia.
From Stdlib Require DecimalN DecimalPos.
Import ListNotations.

Set Implicit Arguments.
Set Warnings "-register-all".

(* ================================================================== *)
(** ** JavaScript strings *)

Module JsString.

(** A string is a sequence of UTF-16 code units. *)
Definition jsstring := list N.

(** Code units of an ASCII literal, used to write constants readably. *)
Definition u (s : string) : jsstring :=
  List.map N_of_ascii (list_ascii_of_string s).

Fixpoint eqb (a b : jsstring) : bool :=
  match a, b with
  | [], [] => true
  | x :: a', y :: b' => N.eqb x y && eqb a' b'
  | _, _ => false
  end.

(** ECMAScript WhiteSpace and LineTerminator code points: what
    [String.prototype.trim] strips. *)
Definition is_ws (c : N) : bool :=
  ((9 <=? c) && (c <=? 13) || (c =? 32) || (c =? 160) || (c =? 5760)
   || (8192 <=? c) && (c <=? 8202) || (c =? 8232) || (c =? 8233)
   || (c =? 8239) || (c =? 8287) || (c =? 12288) || (c =? 65279))%N.

Fixpoint trimStart (s : jsstring) : jsstring :=
  match s with
  | [] => []
  | c :: s' => if is_ws c then trimStart s' else s
  end.

Definition trimEnd (s : jsstring) : jsstring := rev (trimStart (rev s)).

(** [s.trim()] *)
Definition trim (s : jsstring) : jsstring := trimEnd (trimStart s).

Fixpoint startsWith (q s : jsstring) : bool :=
  match q, s with
  | [], _ => true
  | _ :: _, [] => false
  | x :: q', y :: s' => N.eqb x y && startsWith q' s'
  end.

(** [s.includes(q)] *)
Fixpoint includes (s q : jsstring) : bool :=
  startsWith q s ||
  match s with
  | [] => false
  | _ :: s' => includes s' q
  end.

(** [s.slice(from, to)] for [0 <= from <= to]. *)
Definition slice (from to : nat) (s : jsstring) : jsstring :=
  firstn (to - from) (skipn from s).

(** [a <= b] on strings: the comparison of JavaScript, code unit by code
    unit.  On the 24-character output of [Date.prototype.toISOString]
    (years 0000 to 9999) it is the chronological order. *)
Fixpoint leb (a b : jsstring) : bool :=
  match a, b with
  | [], _ => true
  | _ :: _, [] => false
  | x :: a', y :: b' =>
      if N.ltb x y then true else if N.eqb x y then leb a' b' else false
  end.

(** Decimal digits of a natural number, as [String(n)] prints an integer
    below 2^53. *)
Fixpoint digits (d : Decimal.uint) : jsstring :=
  match d with
  | Decimal.Nil => []
  | Decimal.D0 d' => 48%N :: digits d'
  | Decimal.D1 d' => 49%N :: digits d'
  | Decimal.D2 d' => 50%N :: digits d'
  | Decimal.D3 d' => 51%N :: digits d'
  | Decimal.D4 d' => 52%N :: digits d'
  | Decimal.D5 d' => 53%N :: digits d'
  | Decimal.D6 d' => 54%N :: digits d'
  | Decimal.D7 d' => 55%N :: digits d'
  | Decimal.D8 d' => 56%N :: digits d'
  | Decimal.D9 d' => 57%N :: digits d'
  end.

Definition of_N (n : N) : jsstring := digits (N.to_uint n).

End JsString.
Import JsString.

(* ================================================================== *)
(** ** Results of code that may throw *)

Inductive outcome (A : Type) : Type :=
| Ret (a : A)
| Throw
| Unmodelled.
Arguments Ret {A} a.
Arguments Throw {A}.
Arguments Unmodelled {A}.

Definition bind {A B} (m : outcome A) (k : A -> outcome B) : outcome B :=
  match m with
  | Ret a => k a
  | Throw => Throw
  | Unmodelled => Unmodelled
  end.

Declare Scope js_scope.
Delimit Scope js_scope with js.
Notation "x <- m ;; k" := (bind m (fun x => k))
  (at level 61, m at next level, right associativity) : js_scope.
Open Scope js_scope.

(** [mapM f l]: run [f] on the elements from left to right, as
    [Array.prototype.map] and [filter] call their callback. *)
Fixpoint mapM {A B} (f : A -> outcome B) (l : list A) : outcome (list B) :=
  match l with
  | [] => Ret []
  | a :: l' => b <- f a ;; bs <- mapM f l' ;; Ret (b :: bs)
  end.

Fixpoint filterM {A} (f : A -> outcome bool) (l : list A) : outcome (list A) :=
  match l with
  | [] => Ret []
  | a :: l' =>
      keep <- f a ;; rest <- filterM f l' ;;
      Ret (if keep then a :: rest else rest)
  end.

Fixpoint findM {A} (f : A -> outcome bool) (l : list A) : outcome (option A) :=
  match l with
  | [] => Ret None
  | a :: l' => hit <- f a ;; if hit then Ret (Some a) else findM f l'
  end.

Definition try_catch {A} (body : outcome A) (handler : A) : outcome A :=
  match body with
  | Throw => Ret handler
  | other => other
  end.

(* ================================================================== *)
(** ** JavaScript values *)

(** The values the note collection can hold: what [JSON.parse] produces,
    what the handlers build, and [undefined] for absent properties.
    A number is the bit pattern of its IEEE-754 binary64; the program
    never computes with the numbers it stores. *)
Inductive jsval : Type :=
| JUndefined
| JNull
| JBool (b : bool)
| JNum (bits : Z)
| JStr (s : jsstring)
| JArr (items : list jsval)
| JObj (props : list (jsstring * jsval)).

Definition num_is_nan (bits : Z) : bool :=
  (((bits / 2 ^ 52) mod 2 ^ 11 =? 2047) && negb (bits mod 2 ^ 52 =? 0))%Z.

Definition num_is_zero (bits : Z) : bool :=
  ((bits =? 0) || (bits =? 2 ^ 63))%Z.

(** ToBoolean *)
Definition truthy (v : jsval) : bool :=
  match v with
  | JUndefined | JNull => false
  | JBool b => b
  | JNum bits => negb (num_is_zero bits || num_is_nan bits)
  | JStr s => negb (JsString.eqb s [])
  | JArr _ | JObj _ => true
  end.

(** [a === b].  Two objects (or arrays) are equal when they are the same
    object, which the embedding does not track. *)
Definition strict_eq (a b : jsval) : outcome bool :=
  match a, b with
  | JUndefined, JUndefined => Ret true
  | JNull, JNull => Ret true
  | JBool x, JBool y => Ret (Bool.eqb x y)
  | JNum x, JNum y =>
      Ret (negb (num_is_nan x) && negb (num_is_nan y)
           && ((x =? y)%Z || (num_is_zero x && num_is_zero y)))
  | JStr x, JStr y => Ret (JsString.eqb x y)
  | (JArr _ | JObj _), (JArr _ | JObj _) => Unmodelled
  | _, _ => Ret false
  end.

Fixpoint lookup (k : jsstring) (props : list (jsstring * jsval)) : jsval :=
  match props with
  | [] => JUndefined
  | (k', v) :: rest => if JsString.eqb k k' then v else lookup k rest
  end.

(** [v.k], for a key [k] that no built-in prototype defines (the five
    field names of a note). *)
Definition get (v : jsval) (k : jsstring) : outcome jsval :=
  match v with
  | JUndefined | JNull => Throw
  | JObj props => Ret (lookup k props)
  | JBool _ | JNum _ | JStr _ | JArr _ => Ret JUndefined
  end.

(** Defining property [k] on an object literal under construction: an
    existing key keeps its place, a new key goes last. *)
Fixpoint set_prop (k : jsstring) (v : jsval) (props : list (jsstring * jsval))
  : list (jsstring * jsval) :=
  match props with
  | [] => [(k, v)]
  | (k', v') :: rest =>
      if JsString.eqb k k' then (k, v) :: rest
      else (k', v') :: set_prop k v rest
  end.

Fixpoint indexed {A} (f : A -> jsval) (i : N) (l : list A)
  : list (jsstring * jsval) :=
  match l with
  | [] => []
  | a :: l' => (of_N i, f a) :: indexed f (N.succ i) l'
  end.

(** The own enumerable properties that [{...v}] copies. *)
Definition own_props (v : jsval) : list (jsstring * jsval) :=
  match v with
  | JObj props => props
  | JArr items => indexed (fun x => x) 0 items
  | JStr s => indexed (fun c => JStr [c]) 0 s
  | JUndefined | JNull | JBool _ | JNum _ => []
  end.

(** [v.trim()] and [v.toLowerCase()] exist on strings only. *)
Definition call_trim (v : jsval) : outcome jsstring :=
  match v with
  | JStr s => Ret (trim s)
  | _ => Throw
  end.

(** The string a template literal inserts for [v]. *)
Definition template_string (v : jsval) : outcome jsstring :=
  match v with
  | JStr s => Ret s
  | JUndefined => Ret (u "undefined")
  | JNull => Ret (u "null")
  | JBool true => Ret (u "true")
  | JBool false => Ret (u "false")
  | JNum _ | JArr _ | JObj _ => Unmodelled
  end.

Definition isArray (v : jsval) : bool :=
  match v with
  | JArr _ => true
  | _ => false
  end.

(* ================================================================== *)
(** ** App.js *)

(** The state of [App]: the four [useState] cells. *)
Record AppState : Type := {
  notes : list jsval;
  query : jsstring;
  isAdding : bool;
  editingId : jsval
}.

(** [useState([])], [useState('')], [useState(false)], [useState(null)] *)
Definition initial_state : AppState :=
  {| notes := []; query := []; isAdding := false; editingId := JNull |}.

Definition setNotes (f : list jsval -> list jsval) (st : AppState) : AppState :=
  {| notes := f (notes st); query := query st;
     isAdding := isAdding st; editingId := editingId st |}.

Definition setQuery (q : jsstring) (st : AppState) : AppState :=
  {| notes := notes st; query := q;
     isAdding := isAdding st; editingId := editingId st |}.

Definition setIsAdding (b : bool) (st : AppState) : AppState :=
  {| notes := notes st; query := query st;
     isAdding := b; editingId := editingId st |}.

Definition setEditingId (v : jsval) (st : AppState) : AppState :=
  {| notes := notes st; query := query st;
     isAdding := isAdding st; editingId := v |}.

(** What [NoteForm] hands to [onSubmit]: [{ title, content }]. *)
Record FormValues : Type := {
  title : jsstring;
  content : option jsstring
}.

(** What the host returns during one call of [handleCreate]:
    [new Date().toISOString()], then inside [uid] the integer [Date.now()]
    and the text [Math.random().toString(36)]. *)
Record CreateEnv : Type := {
  toISOString_now : jsstring;
  Date_now : Z;
  random_base36 : jsstring
}.

Definition of_Z (z : Z) : jsstring :=
  if (z <? 0)%Z then u "-" ++ of_N (Z.to_N (- z)) else of_N (Z.to_N z).

(** [const uid = () => `${Date.now()}-${Math.random().toString(36).slice(2, 8)}`] *)
Definition uid (env : CreateEnv) : jsstring :=
  of_Z (Date_now env) ++ u "-" ++ slice 2 8 (random_base36 env).

(** [values.content?.trim() || ''] *)
Definition trimmed_content (values : FormValues) : jsstring :=
  match content values with
  | None => []
  | Some c => trim c
  end.

Definition newNote (env : CreateEnv) (values : FormValues) : jsval :=
  JObj [ (u "id", JStr (uid env));
         (u "title", JStr (trim (title values)));
         (u "content", JStr (trimmed_content values));
         (u "createdAt", JStr (toISOString_now env));
         (u "updatedAt", JStr (toISOString_now env)) ].

(** [handleCreate], lines 59-70. *)
Definition handleCreate (env : CreateEnv) (values : FormValues)
  (st : AppState) : AppState :=
  setIsAdding false (setNotes (fun prev => newNote env values :: prev) st).

(** The object [{ ...n, title: ..., content: ..., updatedAt: now }]. *)
Definition updated_note (n : jsval) (values : FormValues) (now : jsstring)
  : jsval :=
  JObj (set_prop (u "updatedAt") (JStr now)
         (set_prop (u "content") (JStr (trimmed_content values))
           (set_prop (u "title") (JStr (trim (title values)))
             (own_props n)))).

(** The updater of [handleUpdate]:
    [prev.map(n => n.id === id ? {...} : n)]. *)
Definition update_notes (id : jsval) (values : FormValues) (now : jsstring)
  (prev : list jsval) : outcome (list jsval) :=
  mapM (fun n =>
          nid <- get n (u "id") ;;
          same <- strict_eq nid id ;;
          Ret (if same then updated_note n values now else n))
       prev.

(** [handleUpdate], lines 72-81; [now] is [new Date().toISOString()]. *)
Definition handleUpdate (id : jsval) (values : FormValues) (now : jsstring)
  (st : AppState) : outcome AppState :=
  ns <- update_notes id values now (notes st) ;;
  Ret (setEditingId JNull (setNotes (fun _ => ns) st)).

(** The text [handleDelete] passes to [window.confirm]. *)
Definition delete_prompt (id : jsval) (ns : list jsval) : outcome jsstring :=
  note <- findM (fun n => nid <- get n (u "id") ;; strict_eq nid id) ns ;;
  name <- match note with
          | None => Ret (u "this note")
          | Some n =>
              t <- get n (u "title") ;;
              if truthy t
              then s <- template_string t ;; Ret (34%N :: s ++ [34%N])
              else Ret (u "this note")
          end ;;
  Ret (u "Delete " ++ name ++ u "? This cannot be undone.").

(** [prev.filter(n => n.id !== id)] *)
Definition remove_notes (id : jsval) (prev : list jsval)
  : outcome (list jsval) :=
  filterM (fun n =>
             nid <- get n (u "id") ;;
             same <- strict_eq nid id ;;
             Ret (negb same))
          prev.

(** [handleDelete], lines 83-90; [confirm] is [window.confirm], the
    user's answer to the prompt. *)
Definition handleDelete (confirm : jsstring -> bool) (id : jsval)
  (st : AppState) : outcome AppState :=
  msg <- delete_prompt id (notes st) ;;
  if confirm msg
  then ns <- remove_notes id (notes st) ;; Ret (setNotes (fun _ => ns) st)
  else Ret st.

(** [submit] of [NoteForm], lines 227-237, seen from [App]: the parent
    callback runs only when the title is not blank. *)
Definition NoteForm_submit (onSubmit : FormValues -> AppState -> outcome AppState)
  (values : FormValues) (st : AppState) : outcome AppState :=
  if JsString.eqb (trim (title values)) [] then Ret st
  else onSubmit values st.

(** [isEdited] of [NoteView], line 296: the "Updated" label is rendered
    exactly when it is true. *)
Definition isEdited (note : jsval) : outcome bool :=
  c <- get note (u "createdAt") ;;
  m <- get note (u "updatedAt") ;;
  same <- strict_eq c m ;;
  Ret (negb same).

Section Search.

(** [String.prototype.toLowerCase] of the host. *)
Variable toLowerCase : jsstring -> jsstring.

Definition call_toLowerCase (v : jsval) : outcome jsstring :=
  match v with
  | JStr s => Ret (toLowerCase s)
  | _ => Throw
  end.

(** The callback of [notes.filter] in [filtered], lines 52-55. *)
Definition matches (q : jsstring) (n : jsval) : outcome bool :=
  t <- get n (u "title") ;;
  tl <- call_toLowerCase t ;;
  if includes tl q then Ret true
  else
    c <- get n (u "content") ;;
    cl <- call_toLowerCase (if truthy c then c else JStr []) ;;
    Ret (includes cl q).

(** [filtered], lines 49-56. *)
Definition filtered (ns : list jsval) (query : jsstring)
  : outcome (list jsval) :=
  let q := toLowerCase (trim query) in
  if JsString.eqb q [] then Ret ns
  else filterM (matches q) ns.

End Search.

(* ------------------------------------------------------------------ *)
(** *** The two storage effects *)

(** The part of [localStorage] the program touches: the value under the
    key ['notes_app__notes'], and whether the host refuses the access
    (storage disabled, quota exceeded). *)
Record LocalStorage : Type := {
  notes_app__notes : option jsstring;
  getItem_throws : bool;
  setItem_throws : bool
}.

Definition getItem (ls : LocalStorage) : outcome (option jsstring) :=
  if getItem_throws ls then Throw else Ret (notes_app__notes ls).

Definition setItem (ls : LocalStorage) (value : jsstring)
  : outcome LocalStorage :=
  if setItem_throws ls then Throw
  else Ret {| notes_app__notes := Some value;
              getItem_throws := getItem_throws ls;
              setItem_throws := setItem_throws ls |}.

Section Storage.

(** [JSON.parse] and [JSON.stringify] of the host; [Throw] is the
    [SyntaxError] of [JSON.parse]. *)
Variable JSON_parse : jsstring -> outcome jsval.
Variable JSON_stringify : jsval -> outcome jsstring.

(** The first effect, lines 25-37. *)
Definition hydration_effect (ls : LocalStorage) (st : AppState)
  : outcome AppState :=
  try_catch
    (raw <- getItem ls ;;
     match raw with
     | Some (c :: rest) =>
         parsed <- JSON_parse (c :: rest) ;;
         match parsed with
         | JArr items => Ret (setNotes (fun _ => items) st)
         | _ => Ret st
         end
     | Some [] | None => Ret st
     end)
    st.

(** The second effect, lines 40-46. *)
Definition persist_effect (st : AppState) (ls : LocalStorage)
  : outcome LocalStorage :=
  try_catch
    (text <- JSON_stringify (JArr (notes st)) ;; setItem ls text)
    ls.

End Storage.

(* ------------------------------------------------------------------ *)
(** *** The user interface *)

(** What the user can do.  A card is named by its index in the rendered
    list. *)
Inductive Event : Type :=
| ClickNewNote
| ChangeQuery (q : jsstring)
| KeyEscape
| SubmitAdd (values : FormValues) (env : CreateEnv)
| CancelAdd
| ClickEmptyStateCreate
| ClickEdit (i : nat)
| ClickDelete (i : nat) (confirm : jsstring -> bool)
| SubmitEdit (i : nat) (values : FormValues) (now : jsstring)
| CancelEdit (i : nat).

(** One rendered card: the note, its [id], and whether it shows the edit
    form ([editingId === note.id], line 141). *)
Record Card : Type := {
  card_note : jsval;
  card_id : jsval;
  card_editing : bool
}.

Section UI.

Variable toLowerCase : jsstring -> jsstring.

(** The cards of one render, lines 136-159. *)
Definition render_cards (st : AppState) : outcome (list Card) :=
  visible <- filtered toLowerCase (notes st) (query st) ;;
  mapM (fun note =>
          nid <- get note (u "id") ;;
          editing <- strict_eq (editingId st) nid ;;
          Ret {| card_note := note; card_id := nid;
                 card_editing := editing |})
       visible.

(** One user interaction.  [Ret None]: the control is not on screen in
    this state. *)
Definition step (st : AppState) (e : Event) : outcome (option AppState) :=
  cards <- render_cards st ;;
  match e with
  | ClickNewNote =>
      Ret (Some (setEditingId JNull (setIsAdding true st)))
  | ChangeQuery q =>
      Ret (Some (setQuery q st))
  | KeyEscape =>
      Ret (Some (setEditingId JNull (setIsAdding false st)))
  | SubmitAdd values env =>
      if isAdding st
      then st' <- NoteForm_submit
                    (fun v s => Ret (handleCreate env v s)) values st ;;
           Ret (Some st')
      else Ret None
  | CancelAdd =>
      if isAdding st then Ret (Some (setIsAdding false st)) else Ret None
  | ClickEmptyStateCreate =>
      match cards with
      | [] => Ret (Some (setIsAdding true st))
      | _ :: _ => Ret None
      end
  | ClickEdit i =>
      match nth_error cards i with
      | Some card =>
          if card_editing card then Ret None
          else Ret (Some (setIsAdding false (setEditingId (card_id card) st)))
      | None => Ret None
      end
  | ClickDelete i confirm =>
      match nth_error cards i with
      | Some card =>
          if card_editing card then Ret None
          else st' <- handleDelete confirm (card_id card) st ;; Ret (Some st')
      | None => Ret None
      end
  | SubmitEdit i values now =>
      match nth_error cards i with
      | Some card =>
          if card_editing card
          then st' <- NoteForm_submit
                        (fun v s => handleUpdate (card_id card) v now s)
                        values st ;;
               Ret (Some st')
          else Ret None
      | None => Ret None
      end
  | CancelEdit i =>
      match nth_error cards i with
      | Some card =>
          if card_editing card then Ret (Some (setEditingId JNull st))
          else Ret None
      | None => Ret None
      end
  end.

(** A sequence of interactions, each on the screen the previous one
    left. *)
Fixpoint run (st : AppState) (es : list Event) : outcome (option AppState) :=
  match es with
  | [] => Ret (Some st)
  | e :: es' =>
      r <- step st e ;;
      match r with
      | Some st' => run st' es'
      | None => Ret None
      end
  end.

End UI.

(** [toLowerCase] on strings of ASCII characters, where it maps [A-Z] to
    [a-z] and leaves every other character alone. *)
Definition toLowerCase_ascii (s : jsstring) : jsstring :=
  List.map (fun c => if ((65 <=? c) && (c <=? 90))%N then (c + 32)%N else c) s.

(* ================================================================== *)
(** ** Notes of the data model *)

(** A note as section 3 of the specification describes it: five string
    fields.  [note_js] is the object [handleCreate] builds for it. *)
Module Note.
Record t : Type := {
  id : jsstring;
  title : jsstring;
  content : jsstring;
  createdAt : jsstring;
  updatedAt : jsstring
}.
End Note.

Definition note_js (n : Note.t) : jsval :=
  JObj [ (u "id", JStr (Note.id n));
         (u "title", JStr (Note.title n));
         (u "content", JStr (Note.content n));
         (u "createdAt", JStr (Note.createdAt n));
         (u "updatedAt", JStr (Note.updatedAt n)) ].

(** The note [handleUpdate] puts in the place of [n]. *)
Definition edit (values : FormValues) (now : jsstring) (n : Note.t) : Note.t :=
  {| Note.id := Note.id n;
     Note.title := trim (title values);
     Note.content := trimmed_content values;
     Note.createdAt := Note.createdAt n;
     Note.updatedAt := now |}.

Definition has_id (id : jsstring) (n : Note.t) : bool :=
  JsString.eqb (Note.id n) id.

(** How many notes of the collection carry [id]. *)
Definition count_id (id : jsstring) (ns : list Note.t) : nat :=
  length (List.filter (has_id id) ns).

(** The invariant of section 3 on one note. *)
Definition timestamps_ordered (n : Note.t) : Prop :=
  JsString.leb (Note.createdAt n) (Note.updatedAt n) = true.


(* ================================================================== *)
(** ** Vocabulary of the statements *)

(** A state of [App] whose collection consists of notes of the data
    model. *)
Definition state_of (ns : list Note.t) (q : jsstring) (adding : bool)
  (editing : jsval) : AppState :=
  {| notes := List.map note_js ns; query := q;
     isAdding := adding; editingId := editing |}.

(** [Create(values)] as the add form runs it: [submit] of [NoteForm] with
    [handleCreate] as [onSubmit]. *)
Definition Create (env : CreateEnv) (values : FormValues) (st : AppState)
  : outcome AppState :=
  NoteForm_submit (fun v s => Ret (handleCreate env v s)) values st.

(** The ids of a collection, in order. *)
Definition ids_of (ns : list jsval) : list (outcome jsval) :=
  List.map (fun n => get n (u "id")) ns.

(** [n] has an id that no note of [ns] has. *)
Definition fresh_id (n : jsval) (ns : list jsval) : Prop :=
  forall m, In m ns -> get m (u "id") <> get n (u "id").

(** What [handleUpdate] does to one note [n], giving [n']. *)
Definition update_relates (id : jsstring) (values : FormValues)
  (now : jsstring) (n n' : Note.t) : Prop :=
  Note.id n' = Note.id n /\
  Note.createdAt n' = Note.createdAt n /\
  (Note.id n <> id -> n' = n) /\
  (Note.id n = id ->
     Note.title n' = trim (title values) /\
     Note.content n' = trimmed_content values /\
     Note.updatedAt n' = now).

(** The name [handleDelete] puts in its prompt. *)
Definition prompt_name (id : jsstring) (ns : list Note.t) : jsstring :=
  match List.find (has_id id) ns with
  | Some n =>
      match Note.title n with
      | [] => u "this note"
      | _ :: _ => 34%N :: Note.title n ++ [34%N]
      end
  | None => u "this note"
  end.

Definition prompt_text (id : jsstring) (ns : list Note.t) : jsstring :=
  u "Delete " ++ prompt_name id ns ++ u "? This cannot be undone.".

(* ------------------------------------------------------------------ *)
(** *** Concrete data *)

Module Sample.

Definition t1 : jsstring := u "2024-01-01T00:00:00.000Z".
Definition t2 : jsstring := u "2024-01-02T00:00:00.000Z".

Definition groceries : Note.t :=
  {| Note.id := u "1704153600000-k3j5x9";
     Note.title := u "Groceries";
     Note.content := u "milk, eggs";
     Note.createdAt := t2;
     Note.updatedAt := t2 |}.

Definition taxes : Note.t :=
  {| Note.id := u "1704067200000-a1b2c3";
     Note.title := u "Taxes";
     Note.content := u "file by April";
     Note.createdAt := t1;
     Note.updatedAt := t1 |}.

(** A second note that carries the id of [groceries]. *)
Definition twin : Note.t :=
  {| Note.id := Note.id groceries;
     Note.title := u "Shopping";
     Note.content := [];
     Note.createdAt := t1;
     Note.updatedAt := t1 |}.

Definition values : FormValues :=
  {| title := u "  Groceries "; content := Some (u " milk, eggs, bread  ") |}.

(** The host at 2024-01-02T00:00:00.000Z, [Math.random()] printing as
    [0.k3j5x9q2m1a] in base 36. *)
Definition env : CreateEnv :=
  {| toISOString_now := t2;
     Date_now := 1704153600000;
     random_base36 := u "0.k3j5x9q2m1a" |}.

Definition accept : jsstring -> bool := fun _ => true.
Definition decline : jsstring -> bool := fun _ => false.

End Sample.

(* ------------------------------------------------------------------ *)
(** *** Vocabulary of the search *)

(** [xs] is [ys] with some elements left out, the others in order. *)
Inductive Subseq {A : Type} : list A -> list A -> Prop :=
| Subseq_nil : Subseq [] []
| Subseq_skip : forall x xs ys, Subseq xs ys -> Subseq xs (x :: ys)
| Subseq_keep : forall x xs ys, Subseq xs ys -> Subseq (x :: xs) (x :: ys).

(** A query that is empty or consists of white space only. *)
Definition blank (q : jsstring) : bool := forallb is_ws q.

(** The first character of [s], if any, is not white space. *)
Definition no_leading_ws (s : jsstring) : bool :=
  match s with
  | [] => true
  | c :: _ => negb (is_ws c)
  end.

Section SearchVocabulary.

Variable toLowerCase : jsstring -> jsstring.

(** [text] contains [q] as a substring, up to case. *)
Definition contains_ci (text q : jsstring) : bool :=
  includes (toLowerCase text) (toLowerCase q).

(** The notes whose title or content contains [q], up to case. *)
Definition notes_containing (q : jsstring) (ns : list Note.t) : list Note.t :=
  List.filter (fun n => contains_ci (Note.title n) q
                        || contains_ci (Note.content n) q) ns.

(** The filtered view as C4 words it: the whole collection for a blank
    query, else the notes that contain the query. *)
Definition view_as_stated (q : jsstring) (ns : list Note.t) : list Note.t :=
  if blank q then ns else notes_containing q ns.

End SearchVocabulary.

(* ------------------------------------------------------------------ *)
(** *** Vocabulary of the reachable states *)

(** The two modes of section 4.1 never hold together. *)
Definition modes_exclusive (st : AppState) : Prop :=
  isAdding st = true -> editingId st = JNull.

(** At the event [e] the clock is not behind the creation time of any
    note of the collection.  Only saving an edit reads the clock into a
    note that already has a creation time. *)
Definition clock_not_behind (st : AppState) (e : Event) : Prop :=
  match e with
  | SubmitEdit _ _ now =>
      forall n, In (note_js n) (notes st) ->
                JsString.leb (Note.createdAt n) now = true
  | _ => True
  end.

Section Reach.

Variable toLowerCase : jsstring -> jsstring.
Variable JSON_parse : jsstring -> outcome jsval.

(** The states the program reaches from a storage that holds notes of the
    data model with ordered timestamps (or nothing usable), under a clock
    that is never behind the creation time of a stored note. *)
Inductive Reachable : AppState -> Prop :=
| Reachable_hydrated : forall ls st ns,
    hydration_effect JSON_parse ls initial_state = Ret st ->
    notes st = List.map note_js ns ->
    Forall timestamps_ordered ns ->
    Reachable st
| Reachable_step : forall st e st',
    Reachable st ->
    clock_not_behind st e ->
    step toLowerCase st e = Ret (Some st') ->
    Reachable st'.

End Reach.

(** The card [render_cards] makes for a note of the data model. *)
Definition card_of (editing : jsval) (n : Note.t) : Card :=
  {| card_note := note_js n;
     card_id := JStr (Note.id n);
     card_editing := match editing with
                     | JStr s => JsString.eqb s (Note.id n)
                     | _ => false
                     end |}.

Module Trace.

(** Create a note, open it for editing, search for something it does not
    contain, then use the button of the empty state. *)
Definition edit_then_empty_state : list Event :=
  [ ClickNewNote;
    SubmitAdd Sample.values Sample.env;
    ClickEdit 0;
    ChangeQuery (u "zzz");
    ClickEmptyStateCreate ].

(** Create a note at [t2], then save an edit with the clock at [t1]. *)
Definition edit_with_clock_set_back : list Event :=
  [ ClickNewNote;
    SubmitAdd Sample.values Sample.env;
    ClickEdit 0;
    SubmitEdit 0 Sample.values Sample.t1 ].

(** Create a note at [t2], then save an edit while the clock still reads
    [t2]. *)
Definition edit_at_creation_time : list Event :=
  [ ClickNewNote;
    SubmitAdd Sample.values Sample.env;
    ClickEdit 0;
    SubmitEdit 0 {| title := u "Food"; content := None |} Sample.t2 ].

End Trace.

(* ================================================================== *)
(** ** The JSON of the host *)

(** [JSON.stringify] (without indentation) and [JSON.parse] (without
    reviver) as ECMA-262 defines them, on texts and values without
    numbers: a number gives [Unmodelled].  The theorems about the storage
    effects hold for any [JSON.parse] and [JSON.stringify]; this model
    provides the instances at which they are applied. *)
Module HostJSON.

Definition hex_digit (n : N) : N :=
  if (n <? 10)%N then (48 + n)%N else (87 + n)%N.

(** [\uXXXX] *)
Definition unicode_escape (c : N) : jsstring :=
  [ 92; 117; hex_digit ((c / 4096) mod 16); hex_digit ((c / 256) mod 16);
    hex_digit ((c / 16) mod 16); hex_digit (c mod 16) ]%N.

Definition is_high_surrogate (c : N) : bool := ((55296 <=? c) && (c <=? 56319))%N.
Definition is_low_surrogate (c : N) : bool := ((56320 <=? c) && (c <=? 57343))%N.

(** One code unit that is not a surrogate, inside a quoted string. *)
Definition quote_unit (c : N) : jsstring :=
  (if c =? 8 then [92; 98]
   else if c =? 9 then [92; 116]
   else if c =? 10 then [92; 110]
   else if c =? 12 then [92; 102]
   else if c =? 13 then [92; 114]
   else if c =? 34 then [92; 34]
   else if c =? 92 then [92; 92]
   else if c <? 32 then unicode_escape c
   else [c])%N.

(** QuoteJSONString without the quotes: a surrogate pair is copied, a
    lone surrogate is escaped. *)
Fixpoint quote_body (s : jsstring) : jsstring :=
  match s with
  | [] => []
  | c :: rest =>
      if is_high_surrogate c then
        match rest with
        | d :: rest' =>
            if is_low_surrogate d then c :: d :: quote_body rest'
            else unicode_escape c ++ quote_body rest
        | [] => unicode_escape c
        end
      else if is_low_surrogate c then unicode_escape c ++ quote_body rest
      else quote_unit c ++ quote_body rest
  end.

Definition quote (s : jsstring) : jsstring := 34%N :: quote_body s ++ [34%N].

Fixpoint join (sep : jsstring) (parts : list jsstring) : jsstring :=
  match parts with
  | [] => []
  | [p] => p
  | p :: rest => p ++ sep ++ join sep rest
  end.

(** SerializeJSONProperty; [None] is [undefined], for which an array
    prints [null] and an object leaves the property out. *)
Fixpoint stringify_value (v : jsval) : outcome (option jsstring) :=
  match v with
  | JUndefined => Ret None
  | JNull => Ret (Some (u "null"))
  | JBool true => Ret (Some (u "true"))
  | JBool false => Ret (Some (u "false"))
  | JNum _ => Unmodelled
  | JStr s => Ret (Some (quote s))
  | JArr items =>
      parts <- (fix elements (l : list jsval) : outcome (list jsstring) :=
                  match l with
                  | [] => Ret []
                  | x :: l' =>
                      t <- stringify_value x ;;
                      ts <- elements l' ;;
                      Ret (match t with
                           | Some s => s
                           | None => u "null"
                           end :: ts)
                  end) items ;;
      Ret (Some (u "[" ++ join (u ",") parts ++ u "]"))
  | JObj props =>
      parts <- (fix members (l : list (jsstring * jsval))
                  : outcome (list jsstring) :=
                  match l with
                  | [] => Ret []
                  | (k, x) :: l' =>
                      t <- stringify_value x ;;
                      ms <- members l' ;;
                      Ret (match t with
                           | Some s => (quote k ++ u ":" ++ s) :: ms
                           | None => ms
                           end)
                  end) props ;;
      Ret (Some (u "{" ++ join (u ",") parts ++ u "}"))
  end.

(** [JSON.stringify(v)] for a [v] that is not [undefined]. *)
Definition stringify (v : jsval) : outcome jsstring :=
  r <- stringify_value v ;;
  match r with
  | Some text => Ret text
  | None => Unmodelled
  end.

(** JSON white space: tab, line feed, carriage return, space. *)
Definition is_json_ws (c : N) : bool :=
  ((c =? 9) || (c =? 10) || (c =? 13) || (c =? 32))%N.

Fixpoint skip_ws (s : jsstring) : jsstring :=
  match s with
  | [] => []
  | c :: r => if is_json_ws c then skip_ws r else s
  end.

Definition hex_value (c : N) : option N :=
  (if (48 <=? c) && (c <=? 57) then Some (c - 48)
   else if (97 <=? c) && (c <=? 102) then Some (c - 87)
   else if (65 <=? c) && (c <=? 70) then Some (c - 55)
   else None)%N.

(** The character after a backslash, [u] apart. *)
Definition unescape (e : N) : option N :=
  (if e =? 34 then Some 34
   else if e =? 92 then Some 92
   else if e =? 47 then Some 47
   else if e =? 98 then Some 8
   else if e =? 102 then Some 12
   else if e =? 110 then Some 10
   else if e =? 114 then Some 13
   else if e =? 116 then Some 9
   else None)%N.

(** A JSON string after its opening quote: the string and the rest of the
    text. *)
Fixpoint parse_string_body (s : jsstring) : outcome (jsstring * jsstring) :=
  match s with
  | [] => Throw
  | c :: r =>
      if (c =? 34)%N then Ret ([], r)
      else if (c =? 92)%N then
        match r with
        | [] => Throw
        | e :: r1 =>
            if (e =? 117)%N then
              match r1 with
              | a :: b :: c' :: d :: r2 =>
                  match hex_value a, hex_value b, hex_value c', hex_value d with
                  | Some x3, Some x2, Some x1, Some x0 =>
                      p <- parse_string_body r2 ;;
                      Ret ((x3 * 4096 + x2 * 256 + x1 * 16 + x0)%N :: fst p,
                           snd p)
                  | _, _, _, _ => Throw
                  end
              | _ => Throw
              end
            else
              match unescape e with
              | Some ch => p <- parse_string_body r1 ;; Ret (ch :: fst p, snd p)
              | None => Throw
              end
        end
      else if (c <? 32)%N then Throw
      else p <- parse_string_body r ;; Ret (c :: fst p, snd p)
  end.

Definition is_digit (c : N) : bool := ((48 <=? c) && (c <=? 57))%N.

Definition digits_value (k : jsstring) : N :=
  fold_left (fun a c => (a * 10 + (c - 48))%N) k 0%N.

(** The array index a property key denotes, if it is one: such keys come
    first in the property order, by value. *)
Definition array_index (k : jsstring) : option N :=
  match k with
  | [] => None
  | c :: r =>
      if forallb is_digit k
         && (negb (c =? 48)%N || JsString.eqb r [])
         && (length k <=? 10)%nat
         && (digits_value k <=? 4294967294)%N
      then Some (digits_value k) else None
  end.

Fixpoint insert_index (i : N) (k : jsstring) (v : jsval)
  (props : list (jsstring * jsval)) : list (jsstring * jsval) :=
  match props with
  | [] => [(k, v)]
  | (k', v') :: rest =>
      match array_index k' with
      | Some j =>
          if (j <? i)%N then (k', v') :: insert_index i k v rest
          else (k, v) :: props
      | None => (k, v) :: props
      end
  end.

Definition has_key (k : jsstring) (props : list (jsstring * jsval)) : bool :=
  existsb (fun p => JsString.eqb k (fst p)) props.

(** CreateDataProperty on the object being parsed. *)
Definition define_prop (k : jsstring) (v : jsval)
  (props : list (jsstring * jsval)) : list (jsstring * jsval) :=
  if has_key k props then set_prop k v props
  else match array_index k with
       | Some i => insert_index i k v props
       | None => props ++ [(k, v)]
       end.

(** The elements of an array after the first one has been found to
    exist; [n] bounds their number. *)
Fixpoint parse_elements (pv : jsstring -> outcome (jsval * jsstring))
  (n : nat) (s : jsstring) (acc : list jsval)
  : outcome (list jsval * jsstring) :=
  match n with
  | O => Unmodelled
  | S n' =>
      p <- pv s ;;
      match skip_ws (snd p) with
      | c :: r' =>
          if (c =? 44)%N then parse_elements pv n' r' (fst p :: acc)
          else if (c =? 93)%N then Ret (rev (fst p :: acc), r')
          else Throw
      | [] => Throw
      end
  end.

Fixpoint parse_members (pv : jsstring -> outcome (jsval * jsstring))
  (n : nat) (s : jsstring) (acc : list (jsstring * jsval))
  : outcome (list (jsstring * jsval) * jsstring) :=
  match n with
  | O => Unmodelled
  | S n' =>
      match skip_ws s with
      | c :: r =>
          if (c =? 34)%N then
            key <- parse_string_body r ;;
            match skip_ws (snd key) with
            | c1 :: r1 =>
                if (c1 =? 58)%N then
                  p <- pv r1 ;;
                  let acc' := define_prop (fst key) (fst p) acc in
                  match skip_ws (snd p) with
                  | c2 :: r2 =>
                      if (c2 =? 44)%N then parse_members pv n' r2 acc'
                      else if (c2 =? 125)%N then Ret (acc', r2)
                      else Throw
                  | [] => Throw
                  end
                else Throw
            | [] => Throw
            end
          else Throw
      | [] => Throw
      end
  end.

(** One JSON value and the rest of the text; [fuel] bounds the nesting. *)
Fixpoint parse_value (fuel : nat) (s : jsstring)
  : outcome (jsval * jsstring) :=
  match fuel with
  | O => Unmodelled
  | S f =>
      match skip_ws s with
      | [] => Throw
      | c :: r =>
          if (c =? 34)%N then
            p <- parse_string_body r ;; Ret (JStr (fst p), snd p)
          else if (c =? 91)%N then
            match skip_ws r with
            | c' :: r' =>
                if (c' =? 93)%N then Ret (JArr [], r')
                else p <- parse_elements (parse_value f) (length r) r [] ;;
                     Ret (JArr (fst p), snd p)
            | [] => Throw
            end
          else if (c =? 123)%N then
            match skip_ws r with
            | c' :: r' =>
                if (c' =? 125)%N then Ret (JObj [], r')
                else p <- parse_members (parse_value f) (length r) r [] ;;
                     Ret (JObj (fst p), snd p)
            | [] => Throw
            end
          else if startsWith (u "null") (c :: r) then Ret (JNull, skipn 3 r)
          else if startsWith (u "true") (c :: r) then Ret (JBool true, skipn 3 r)
          else if startsWith (u "false") (c :: r)
               then Ret (JBool false, skipn 4 r)
          else if (c =? 45)%N || is_digit c then Unmodelled
          else Throw
      end
  end.

(** [JSON.parse(text)] *)
Definition parse (text : jsstring) : outcome jsval :=
  p <- parse_value (S (length text)) text ;;
  match skip_ws (snd p) with
  | [] => Ret (fst p)
  | _ :: _ => Throw
  end.

End HostJSON.

(** The text [JSON.stringify] prints for a note of the data model, and for
    a collection of them. *)
Definition member_text (k v : jsstring) : jsstring :=
  HostJSON.quote k ++ u ":" ++ HostJSON.quote v.

Definition note_text (n : Note.t) : jsstring :=
  u "{" ++
  HostJSON.join (u ",")
    [ member_text (u "id") (Note.id n);
      member_text (u "title") (Note.title n);
      member_text (u "content") (Note.content n);
      member_text (u "createdAt") (Note.createdAt n);
      member_text (u "updatedAt") (Note.updatedAt n) ] ++
  u "}".

Definition notes_text (ns : list Note.t) : jsstring :=
  u "[" ++ HostJSON.join (u ",") (List.map note_text ns) ++ u "]".

(* ------------------------------------------------------------------ *)
(** *** Concrete storages *)

Module SampleStorage.

Definition holding (text : option jsstring) : LocalStorage :=
  {| notes_app__notes := text;
     getItem_throws := false;
     setItem_throws := false |}.

(** The double quote. *)
Definition dq : jsstring := [34%N].

(** A stored array whose elements are not notes: [null], the string [x],
    an object whose only property is [id: true], and an empty array. *)
Definition junk_text : jsstring :=
  u "[null," ++ dq ++ u "x" ++ dq ++ u ",{" ++ dq ++ u "id" ++ dq
  ++ u ":true},[]]".

(** A stored object, with an empty array under the key [notes]. *)
Definition object_text : jsstring :=
  u "{" ++ dq ++ u "notes" ++ dq ++ u ":[]}".

(** A stored text that is not JSON. *)
Definition broken_text : jsstring := u "[{".

Definition junk : list jsval :=
  [ JNull; JStr (u "x"); JObj [(u "id", JBool true)]; JArr [] ].

(** A stored note whose [updatedAt] is one day before its [createdAt]. *)
Definition backdated : Note.t :=
  {| Note.id := u "1704153600000-k3j5x9";
     Note.title := u "Groceries";
     Note.content := u "milk, eggs";
     Note.createdAt := Sample.t2;
     Note.updatedAt := Sample.t1 |}.

End SampleStorage.

(* ================================================================== *)
(** ** The rest of App.js *)

(** The note [handleCreate] builds, as a note of the data model. *)
Definition created (env : CreateEnv) (values : FormValues) : Note.t :=
  {| Note.id := uid env;
     Note.title := trim (title values);
     Note.content := trimmed_content values;
     Note.createdAt := toISOString_now env;
     Note.updatedAt := toISOString_now env |}.

(** [n] with nothing but its [updatedAt] changed. *)
Definition touch (now : jsstring) (n : Note.t) : Note.t :=
  {| Note.id := Note.id n;
     Note.title := Note.title n;
     Note.content := Note.content n;
     Note.createdAt := Note.createdAt n;
     Note.updatedAt := now |}.

(** A note as the two forms leave it: title and content trimmed, the
    title not empty. *)
Definition tidy (n : Note.t) : Prop :=
  trim (Note.title n) = Note.title n /\
  Note.title n <> [] /\
  trim (Note.content n) = Note.content n.

(** At the event [e] the id that [uid] generates is not in use. *)
Definition uid_unused (st : AppState) (e : Event) : Prop :=
  match e with
  | SubmitAdd _ env =>
      forall n, In (note_js n) (notes st) -> Note.id n <> uid env
  | _ => True
  end.

(** Not being the note with [id]. *)
Definition other_than (id : jsstring) (n : Note.t) : bool :=
  negb (has_id id n).

(* ------------------------------------------------------------------ *)
(** *** NoteForm, lines 207-288 *)

Module NoteForm.

(** The three [useState] cells of the form. *)
Record State : Type := {
  title : jsstring;
  content : jsstring;
  error : jsstring
}.

(** The first render: [useState(initialTitle)],
    [useState(initialContent)], [useState('')]. *)
Definition mount (initialTitle initialContent : jsstring) : State :=
  {| title := initialTitle; content := initialContent; error := [] |}.

(** What the user does in the form. *)
Inductive Event : Type :=
| ChangeTitle (value : jsstring)
| ChangeContent (value : jsstring)
| Submit
| KeyDown (key : jsstring) (metaKey ctrlKey : bool)
| ClickCancel.

(** The calls of the callbacks given by the parent. *)
Inductive Call : Type :=
| OnSubmit (values : FormValues)
| OnCancel.

(** [submit], lines 227-237. *)
Definition submit (s : State) : State * list Call :=
  if JsString.eqb (trim (title s)) []
  then ({| title := title s; content := content s;
           error := u "Title cannot be empty." |}, [])
  else ({| title := []; content := []; error := [] |},
        [OnSubmit (Build_FormValues (title s) (Some (content s)))]).

(** The handlers of the form: [onChange] of the two fields (lines 262 and
    269), [onSubmit] (line 250), [onKeyDown] (lines 239-245) and the
    cancel button (line 279). *)
Definition handle (s : State) (e : Event) : State * list Call :=
  match e with
  | ChangeTitle value =>
      ({| title := value; content := content s;
          error := if JsString.eqb (error s) [] then error s else [] |}, [])
  | ChangeContent value =>
      ({| title := title s; content := value; error := error s |}, [])
  | Submit => submit s
  | KeyDown key metaKey ctrlKey =>
      if JsString.eqb key (u "Enter") && (metaKey || ctrlKey)
      then submit s else (s, [])
  | ClickCancel => (s, [OnCancel])
  end.

(** A sequence of events: the last state and the calls made, in order. *)
Fixpoint run (s : State) (es : list Event) : State * list Call :=
  match es with
  | [] => (s, [])
  | e :: es' =>
      let (s1, calls1) := handle s e in
      let (s2, calls2) := run s1 es' in
      (s2, calls1 ++ calls2)
  end.

(** The error is absent, or it is the one message and the title on
    screen is blank. *)
Definition error_consistent (s : State) : Prop :=
  error s = [] \/
  (error s = u "Title cannot be empty." /\ trim (title s) = []).

End NoteForm.

(* ------------------------------------------------------------------ *)
(** *** NoteView and EmptyState *)

(** The text of the preview paragraph of [NoteView], lines 307-311;
    [None] when the paragraph is not rendered. *)
Definition preview (content : jsval) : outcome (option jsstring) :=
  match content with
  | JStr s =>
      if truthy content
      then Ret (Some (if (240 <? length s)%nat
                      then slice 0 240 s ++ [8230%N]
                      else s))
      else Ret None
  | JUndefined | JNull | JBool false => Ret None
  | JBool true | JNum _ | JArr _ | JObj _ => Unmodelled
  end.

(** The two faces of [EmptyState], lines 340-358. *)
Inductive EmptyVariant : Type :=
| NoNotesFound
| Welcome.

Definition EmptyState (query : jsstring) : EmptyVariant :=
  if truthy (JStr query) then NoNotesFound else Welcome.

(** The notes list of [App], lines 135-160. *)
Inductive NotesList : Type :=
| ShowEmptyState (variant : EmptyVariant)
| ShowCards (cards : list Card).

Definition notes_list (toLowerCase : jsstring -> jsstring) (st : AppState)
  : outcome NotesList :=
  cards <- render_cards toLowerCase st ;;
  Ret (match cards with
       | [] => ShowEmptyState (EmptyState (query st))
       | _ :: _ => ShowCards cards
       end).

(** How many cards show the edit form. *)
Definition edit_forms (cards : list Card) : nat :=
  length (List.filter card_editing cards).

(* ------------------------------------------------------------------ *)
(** *** The first commit *)

Section Startup.

Variable JSON_parse : jsstring -> outcome jsval.
Variable JSON_stringify : jsval -> outcome jsstring.

(** The array the first effect passes to [setNotes], if it calls it. *)
Definition hydrated_array (ls : LocalStorage) : outcome (option (list jsval)) :=
  try_catch
    (raw <- getItem ls ;;
     match raw with
     | Some (c :: rest) =>
         parsed <- JSON_parse (c :: rest) ;;
         match parsed with
         | JArr items => Ret (Some items)
         | _ => Ret None
         end
     | Some [] | None => Ret None
     end)
    None.


End Startup.

(** [null] or [undefined]: the values on which reading a property
    throws. *)
Definition nullish (v : jsval) : bool :=
  match v with
  | JUndefined | JNull => true
  | _ => false
  end.
(* ================================================================== *)
(** ** Basic facts *)

Unset Implicit Arguments.

Lemma eqb_eq (a b : jsstring) : JsString.eqb a b = true <-> a = b.
Proof.
  revert b; induction a as [|x a IH]; intros [|y b]; simpl;
    try (split; [discriminate | congruence]); try tauto.
  rewrite andb_true_iff, N.eqb_eq, IH. split.
  - intros [-> ->]; reflexivity.
  - intros H; injection H; auto.
Qed.

Lemma eqb_refl (a : jsstring) : JsString.eqb a a = true.
Proof. apply eqb_eq; reflexivity. Qed.

Lemma eqb_neq (a b : jsstring) : JsString.eqb a b = false <-> a <> b.
Proof.
  rewrite <- eqb_eq. destruct (JsString.eqb a b); split; congruence.
Qed.

Lemma leb_refl (a : jsstring) : JsString.leb a a = true.
Proof.
  induction a as [|x a IH]; simpl; [reflexivity|].
  rewrite N.ltb_irrefl, N.eqb_refl. exact IH.
Qed.

Lemma get_note_id (n : Note.t) : get (note_js n) (u "id") = Ret (JStr (Note.id n)).
Proof. reflexivity. Qed.

Lemma get_note_title (n : Note.t) :
  get (note_js n) (u "title") = Ret (JStr (Note.title n)).
Proof. reflexivity. Qed.

Lemma get_note_content (n : Note.t) :
  get (note_js n) (u "content") = Ret (JStr (Note.content n)).
Proof. reflexivity. Qed.

Lemma get_note_createdAt (n : Note.t) :
  get (note_js n) (u "createdAt") = Ret (JStr (Note.createdAt n)).
Proof. reflexivity. Qed.

Lemma get_note_updatedAt (n : Note.t) :
  get (note_js n) (u "updatedAt") = Ret (JStr (Note.updatedAt n)).
Proof. reflexivity. Qed.

Lemma note_js_inj (a b : Note.t) : note_js a = note_js b -> a = b.
Proof.
  destruct a, b; unfold note_js; simpl; intros H; injection H; intros; subst.
  reflexivity.
Qed.

Lemma updated_note_js (n : Note.t) (values : FormValues) (now : jsstring) :
  updated_note (note_js n) values now = note_js (edit values now n).
Proof. reflexivity. Qed.

Lemma newNote_js (env : CreateEnv) (values : FormValues) :
  newNote env values =
  note_js {| Note.id := uid env;
             Note.title := trim (title values);
             Note.content := trimmed_content values;
             Note.createdAt := toISOString_now env;
             Note.updatedAt := toISOString_now env |}.
Proof. reflexivity. Qed.

(** On notes of the data model the updater of [handleUpdate] returns, and
    is a [map]. *)
Lemma update_notes_js (id : jsstring) (values : FormValues) (now : jsstring)
  (ns : list Note.t) :
  update_notes (JStr id) values now (List.map note_js ns) =
  Ret (List.map note_js
         (List.map (fun n => if has_id id n then edit values now n else n) ns)).
Proof.
  unfold update_notes.
  induction ns as [|n ns IH]; simpl; [reflexivity|].
  rewrite IH; simpl. unfold has_id.
  destruct (JsString.eqb (Note.id n) id); reflexivity.
Qed.

(** On notes of the data model the updater of [handleDelete] returns, and
    is a [filter]. *)
Lemma remove_notes_js (id : jsstring) (ns : list Note.t) :
  remove_notes (JStr id) (List.map note_js ns) =
  Ret (List.map note_js (List.filter (fun n => negb (has_id id n)) ns)).
Proof.
  unfold remove_notes.
  induction ns as [|n ns IH]; simpl; [reflexivity|].
  rewrite IH; simpl. unfold has_id.
  destruct (JsString.eqb (Note.id n) id); reflexivity.
Qed.

Lemma findM_js (id : jsstring) (ns : list Note.t) :
  findM (fun n => nid <- get n (u "id") ;; strict_eq nid (JStr id))
        (List.map note_js ns) =
  Ret (option_map note_js (List.find (has_id id) ns)).
Proof.
  induction ns as [|n ns IH]; simpl; [reflexivity|].
  unfold has_id at 1. destruct (JsString.eqb (Note.id n) id); simpl.
  - reflexivity.
  - exact IH.
Qed.

Lemma delete_prompt_js (id : jsstring) (ns : list Note.t) :
  delete_prompt (JStr id) (List.map note_js ns) = Ret (prompt_text id ns).
Proof.
  unfold delete_prompt, prompt_text, prompt_name.
  rewrite findM_js. simpl.
  destruct (List.find (has_id id) ns) as [n|]; simpl; [|reflexivity].
  destruct (Note.title n); reflexivity.
Qed.

Lemma filter_length_split {A} (f : A -> bool) (l : list A) :
  length (List.filter (fun x => negb (f x)) l) + length (List.filter f l)
  = length l.
Proof.
  induction l as [|x l IH]; simpl; [reflexivity|].
  destruct (f x); simpl; lia.
Qed.

Lemma count_id_unique (id : jsstring) (ns : list Note.t) :
  NoDup (List.map Note.id ns) -> In id (List.map Note.id ns) ->
  count_id id ns = 1.
Proof.
  unfold count_id.
  induction ns as [|n ns IH]; simpl; [tauto|].
  intros Hnd Hin. inversion Hnd as [|? ? Hnot Hnd']; subst.
  unfold has_id at 1.
  destruct (JsString.eqb (Note.id n) id) eqn:E.
  - apply eqb_eq in E. subst id. simpl. f_equal.
    assert (H0 : forall l, ~ In (Note.id n) (List.map Note.id l) ->
                 List.filter (has_id (Note.id n)) l = []).
    { induction l as [|m l IHl]; simpl; [reflexivity|].
      intros Hn. unfold has_id at 1.
      destruct (JsString.eqb (Note.id m) (Note.id n)) eqn:E'.
      - apply eqb_eq in E'. exfalso. apply Hn. left. exact E'.
      - apply IHl. intros Hc. apply Hn. right. exact Hc. }
    rewrite (H0 ns Hnot). reflexivity.
  - apply eqb_neq in E. destruct Hin as [Hin|Hin]; [congruence|].
    apply IH; assumption.
Qed.

Lemma handleDelete_js (confirm : jsstring -> bool) (id : jsstring)
  (ns : list Note.t) (q : jsstring) (adding : bool) (editing : jsval) :
  handleDelete confirm (JStr id) (state_of ns q adding editing) =
  Ret (if confirm (prompt_text id ns)
       then state_of (List.filter (fun n => negb (has_id id n)) ns)
                     q adding editing
       else state_of ns q adding editing).
Proof.
  unfold handleDelete, state_of; simpl.
  rewrite delete_prompt_js; simpl.
  destruct (confirm (prompt_text id ns)); [|reflexivity].
  rewrite remove_notes_js. reflexivity.
Qed.

(* ================================================================== *)
(** ** Create *)

(** C1, as stated, fails: the id comes from [uid], which prints the clock
    and six digits of a random number and looks at no existing note.  With
    the clock at 1704153600000 and the random digits [k3j5x9], the note
    created on top of [Sample.groceries] carries the id of
    [Sample.groceries]. *)
Lemma create_id_not_fresh :
  let st := state_of [Sample.groceries] [] true JNull in
  trim (title Sample.values) <> [] /\
  exists n st',
    Create Sample.env Sample.values st = Ret st' /\
    notes st' = n :: notes st /\
    ~ fresh_id n (notes st).
Proof.
  split; [vm_compute; discriminate|].
  eexists; eexists. split; [reflexivity|]. split; [reflexivity|].
  intros Hfresh.
  apply (Hfresh (note_js Sample.groceries)); [left; reflexivity|].
  vm_compute. reflexivity.
Qed.

(** C1 (amended): for every submitted form value whose title is not blank,
    Create returns the collection with exactly one note put in front of the
    previous notes, which follow unchanged and in order.  The new note has
    the id [uid()] generated at the call, the trimmed title and content,
    and [createdAt] equal to [updatedAt] (so no "Updated" label).  Its id
    differs from every id of the collection whenever the generated string
    is not already one of them; the add form is closed, the query and the
    edit mode stay as they were. *)
Theorem create_prepends_one_note :
  forall (env : CreateEnv) (values : FormValues) (st : AppState),
    trim (title values) <> [] ->
    exists n st',
      Create env values st = Ret st' /\
      notes st' = n :: notes st /\
      length (notes st') = S (length (notes st)) /\
      get n (u "id") = Ret (JStr (uid env)) /\
      get n (u "title") = Ret (JStr (trim (title values))) /\
      get n (u "content") = Ret (JStr (trimmed_content values)) /\
      get n (u "createdAt") = Ret (JStr (toISOString_now env)) /\
      get n (u "updatedAt") = get n (u "createdAt") /\
      isEdited n = Ret false /\
      (~ In (Ret (JStr (uid env))) (ids_of (notes st)) ->
       fresh_id n (notes st)) /\
      isAdding st' = false /\
      query st' = query st /\
      editingId st' = editingId st.
Proof.
  intros env values st Hne.
  exists (newNote env values), (handleCreate env values st).
  split.
  { unfold Create, NoteForm_submit.
    destruct (JsString.eqb (trim (title values)) []) eqn:E; [|reflexivity].
    apply eqb_eq in E. contradiction. }
  repeat split; try reflexivity.
  - unfold isEdited; simpl. rewrite eqb_refl. reflexivity.
  - intros Hnot m Hm Heq. apply Hnot.
    unfold ids_of. apply in_map_iff. exists m. split; [|exact Hm].
    rewrite Heq. reflexivity.
Qed.

Lemma create_prepends_one_note_witness :
  trim (title Sample.values) <> [] /\
  exists n st',
    Create Sample.env Sample.values (state_of [Sample.taxes] [] true JNull)
      = Ret st' /\
    notes st' = n :: notes (state_of [Sample.taxes] [] true JNull) /\
    get n (u "title") = Ret (JStr (u "Groceries")).
Proof.
  assert (H : trim (title Sample.values) <> []) by (vm_compute; discriminate).
  split; [exact H|].
  destruct (create_prepends_one_note Sample.env Sample.values
              (state_of [Sample.taxes] [] true JNull) H)
    as (n & st' & Hc & Hn & _ & _ & Ht & _).
  exists n, st'. repeat split; assumption.
Defined.

(* ================================================================== *)
(** ** Update *)

(** C2, as stated, fails in its last part: [updatedAt] becomes whatever
    the clock reads at the edit, also when that is earlier than the value
    stored.  Editing [Sample.groceries] (updated on 2024-01-02) with the
    clock at 2024-01-01 moves its [updatedAt] back. *)
Lemma update_clock_set_back :
  exists n',
    In (Note.id Sample.groceries)
       (List.map Note.id [Sample.taxes; Sample.groceries]) /\
    update_notes (JStr (Note.id Sample.groceries)) Sample.values Sample.t1
      (List.map note_js [Sample.taxes; Sample.groceries])
    = Ret (List.map note_js [Sample.taxes; n']) /\
    JsString.leb (Note.updatedAt Sample.groceries) (Note.updatedAt n') = false.
Proof.
  exists (edit Sample.values Sample.t1 Sample.groceries).
  split; [right; left; reflexivity|].
  split; vm_compute; reflexivity.
Qed.

(** C2 (amended): for every collection and every id, Update(id, values)
    returns; it keeps the length and the order of the collection and the
    [id] and [createdAt] of every note, leaves every note with another id
    as it is, and gives the notes with that id the trimmed title and
    content and [updatedAt] equal to the clock reading of the edit.  The
    new [updatedAt] is >= the previous one whenever that clock reading is
    not earlier than the stored value.  Edit mode is closed. *)
Theorem update_frame :
  forall (id : jsstring) (values : FormValues) (now : jsstring)
         (ns : list Note.t) (q : jsstring) (adding : bool) (editing : jsval),
    exists ns',
      handleUpdate (JStr id) values now (state_of ns q adding editing)
        = Ret (state_of ns' q adding JNull) /\
      length ns' = length ns /\
      List.map Note.id ns' = List.map Note.id ns /\
      Forall2 (update_relates id values now) ns ns' /\
      Forall2 (fun n n' =>
                 Note.id n = id ->
                 JsString.leb (Note.updatedAt n) now = true ->
                 JsString.leb (Note.updatedAt n) (Note.updatedAt n') = true)
              ns ns'.
Proof.
  intros id values now ns q adding editing.
  exists (List.map (fun n => if has_id id n then edit values now n else n) ns).
  split.
  { unfold handleUpdate, state_of; simpl.
    rewrite update_notes_js. reflexivity. }
  split; [apply length_map|].
  split.
  { rewrite map_map. apply map_ext. intros n.
    destruct (has_id id n); reflexivity. }
  split.
  - induction ns as [|n ns IH]; simpl; constructor; try exact IH.
    unfold has_id, update_relates.
    destruct (JsString.eqb (Note.id n) id) eqn:E.
    + apply eqb_eq in E. simpl. repeat split; try reflexivity.
      intros Hne; contradiction.
    + apply eqb_neq in E. repeat split; try reflexivity; contradiction.
  - induction ns as [|n ns IH]; simpl; constructor; try exact IH.
    intros Hid Hle. unfold has_id.
    destruct (JsString.eqb (Note.id n) id) eqn:E.
    + simpl. exact Hle.
    + apply leb_refl.
Qed.

(* ================================================================== *)
(** ** Delete *)

(** C3, as stated, fails on a collection in which two notes carry the
    targeted id: the accepted deletion removes both. *)
Lemma delete_removes_two :
  let st := state_of [Sample.groceries; Sample.taxes; Sample.twin]
                     [] false JNull in
  exists st',
    In (Note.id Sample.groceries)
       (List.map Note.id [Sample.groceries; Sample.taxes; Sample.twin]) /\
    handleDelete Sample.accept (JStr (Note.id Sample.groceries)) st = Ret st' /\
    length (notes st) = 3 /\
    length (notes st') = 1.
Proof.
  eexists. split; [left; reflexivity|].
  split; [vm_compute; reflexivity|].
  split; reflexivity.
Qed.

(** C3 (amended): for every collection and id, Delete(id) asks for
    confirmation with a prompt naming the title of the first note with that
    id.  When the answer is yes the result is the collection without the
    notes whose id is the targeted one, the others kept in order: its size
    is smaller by the number of notes carrying that id, which is exactly
    one when the ids of the collection are distinct and the id is present.
    When the answer is no the state is the same as before. *)
Theorem delete_removes_targeted_id :
  forall (confirm : jsstring -> bool) (id : jsstring)
         (ns : list Note.t) (q : jsstring) (adding : bool) (editing : jsval),
    let st := state_of ns q adding editing in
    let kept := List.filter (fun n => negb (has_id id n)) ns in
    handleDelete confirm (JStr id) st =
      Ret (if confirm (prompt_text id ns)
           then state_of kept q adding editing else st) /\
    (forall n, In n kept <-> In n ns /\ Note.id n <> id) /\
    length kept + count_id id ns = length ns /\
    (NoDup (List.map Note.id ns) -> In id (List.map Note.id ns) ->
     S (length kept) = length ns).
Proof.
  intros confirm id ns q adding editing st kept.
  split; [apply handleDelete_js|].
  split.
  { intros n. unfold kept. rewrite filter_In. unfold has_id.
    rewrite negb_true_iff, eqb_neq. tauto. }
  split.
  { unfold kept, count_id. apply filter_length_split. }
  intros Hnd Hin.
  pose proof (filter_length_split (has_id id) ns) as Hs.
  pose proof (count_id_unique id ns Hnd Hin) as Hc.
  unfold count_id in Hc. unfold kept. lia.
Qed.

(* ================================================================== *)
(** ** Strings: [trim] and [includes] *)

Lemma trimStart_no_leading_ws (s : jsstring) :
  no_leading_ws (trimStart s) = true.
Proof.
  induction s as [|c s IH]; simpl; [reflexivity|].
  destruct (is_ws c) eqn:E; [exact IH|]. simpl. rewrite E. reflexivity.
Qed.

Lemma trimStart_fixed (s : jsstring) :
  no_leading_ws s = true -> trimStart s = s.
Proof.
  destruct s as [|c s]; simpl; [reflexivity|].
  intros H. apply negb_true_iff in H. rewrite H. reflexivity.
Qed.

Lemma trimStart_snoc (l : jsstring) (c : N) :
  is_ws c = false -> exists t, trimStart (l ++ [c]) = t ++ [c].
Proof.
  intros Hc. induction l as [|x l IH]; simpl.
  - rewrite Hc. exists []. reflexivity.
  - destruct (is_ws x); [exact IH|]. exists (x :: l). reflexivity.
Qed.

Lemma trimEnd_no_leading_ws (s : jsstring) :
  no_leading_ws s = true -> no_leading_ws (trimEnd s) = true.
Proof.
  destruct s as [|c s]; [reflexivity|]. simpl.
  intros H. apply negb_true_iff in H.
  unfold trimEnd. simpl rev.
  destruct (trimStart_snoc (rev s) c H) as [t Ht]. rewrite Ht.
  rewrite rev_app_distr. simpl. rewrite H. reflexivity.
Qed.

Lemma trimEnd_idempotent (s : jsstring) : trimEnd (trimEnd s) = trimEnd s.
Proof.
  unfold trimEnd. rewrite rev_involutive.
  rewrite (trimStart_fixed _ (trimStart_no_leading_ws (rev s))).
  reflexivity.
Qed.

Lemma trim_idempotent (s : jsstring) : trim (trim s) = trim s.
Proof.
  unfold trim.
  rewrite (trimStart_fixed (trimEnd (trimStart s))).
  - apply trimEnd_idempotent.
  - apply trimEnd_no_leading_ws, trimStart_no_leading_ws.
Qed.

Lemma trimStart_blank (s : jsstring) : blank s = true -> trimStart s = [].
Proof.
  unfold blank. induction s as [|c s IH]; simpl; [reflexivity|].
  intros H. apply andb_true_iff in H. destruct H as [Hc Hs].
  rewrite Hc. apply IH, Hs.
Qed.

Lemma trim_blank (s : jsstring) : blank s = true -> trim s = [].
Proof.
  intros H. unfold trim. rewrite (trimStart_blank s H). reflexivity.
Qed.

Lemma startsWith_iff (q s : jsstring) :
  startsWith q s = true <-> exists post, s = q ++ post.
Proof.
  revert s. induction q as [|x q IH]; intros s; simpl.
  - split; [intros _; exists s; reflexivity | reflexivity].
  - destruct s as [|y s].
    + split; [discriminate | intros [post H]; discriminate].
    + rewrite andb_true_iff, N.eqb_eq, IH. split.
      * intros [-> [post ->]]. exists post. reflexivity.
      * intros [post H]. injection H as -> ->. split; [reflexivity|].
        exists post. reflexivity.
Qed.

Lemma includes_iff (s q : jsstring) :
  includes s q = true <-> exists pre post, s = pre ++ q ++ post.
Proof.
  induction s as [|c s IH]; simpl.
  - rewrite orb_false_r, startsWith_iff. split.
    + intros [post H]. exists [], post. exact H.
    + intros [pre [post H]]. destruct pre as [|p pre]; [|discriminate].
      exists post. exact H.
  - rewrite orb_true_iff, startsWith_iff, IH. split.
    + intros [[post H] | [pre [post H]]].
      * exists [], post. exact H.
      * exists (c :: pre), post. simpl. rewrite H. reflexivity.
    + intros [pre [post H]]. destruct pre as [|p pre].
      * left. exists post. exact H.
      * right. simpl in H. injection H as _ H. exists pre, post. exact H.
Qed.

Lemma includes_empty (s : jsstring) : includes s [] = true.
Proof. destruct s; reflexivity. Qed.

(* ================================================================== *)
(** ** Lists *)

Lemma Subseq_refl {A} (l : list A) : Subseq l l.
Proof. induction l; constructor; assumption. Qed.

Lemma Subseq_filter {A} (f : A -> bool) (l : list A) :
  Subseq (List.filter f l) l.
Proof.
  induction l as [|x l IH]; simpl; [constructor|].
  destruct (f x); constructor; exact IH.
Qed.

Lemma Subseq_map {A B} (f : A -> B) (xs ys : list A) :
  Subseq xs ys -> Subseq (List.map f xs) (List.map f ys).
Proof. induction 1; simpl; constructor; assumption. Qed.

Lemma filterM_Subseq {A} (f : A -> outcome bool) (l l' : list A) :
  filterM f l = Ret l' -> Subseq l' l.
Proof.
  revert l'. induction l as [|x l IH]; simpl; intros l' H.
  - injection H as <-. constructor.
  - destruct (f x) as [keep| |]; simpl in H; try discriminate.
    destruct (filterM f l) as [rest| |]; simpl in H; try discriminate.
    injection H as <-. destruct keep; constructor; apply IH; reflexivity.
Qed.

Lemma Subseq_In {A} (xs ys : list A) :
  Subseq xs ys -> forall x, In x xs -> In x ys.
Proof.
  induction 1; simpl; intros z Hz; [exact Hz | right; auto |].
  destruct Hz as [Hz|Hz]; [left; exact Hz | right; auto].
Qed.

Lemma filter_all {A} (f : A -> bool) (l : list A) :
  (forall x, f x = true) -> List.filter f l = l.
Proof.
  intros H. induction l as [|x l IH]; simpl; [reflexivity|].
  rewrite H, IH. reflexivity.
Qed.

(* ================================================================== *)
(** ** The filtered view *)

Section FilteredFacts.

Variable toLowerCase : jsstring -> jsstring.

Lemma matches_js (q : jsstring) (n : Note.t) :
  matches toLowerCase q (note_js n) =
  Ret (includes (toLowerCase (Note.title n)) q
       || includes (toLowerCase (Note.content n)) q).
Proof.
  unfold matches. rewrite get_note_title, get_note_content. simpl.
  destruct (includes (toLowerCase (Note.title n)) q); [reflexivity|].
  destruct (Note.content n); reflexivity.
Qed.

Lemma filterM_matches_js (q : jsstring) (ns : list Note.t) :
  filterM (matches toLowerCase q) (List.map note_js ns) =
  Ret (List.map note_js
         (List.filter
            (fun n => includes (toLowerCase (Note.title n)) q
                      || includes (toLowerCase (Note.content n)) q) ns)).
Proof.
  induction ns as [|n ns IH]; simpl; [reflexivity|].
  rewrite matches_js, IH. simpl.
  destruct (includes (toLowerCase (Note.title n)) q
            || includes (toLowerCase (Note.content n)) q); reflexivity.
Qed.

(** On notes of the data model [filtered] returns, and is the [filter]
    by the lower-cased trimmed query. *)
Lemma filtered_js (ns : list Note.t) (query : jsstring) :
  filtered toLowerCase (List.map note_js ns) query =
  Ret (List.map note_js (notes_containing toLowerCase (trim query) ns)).
Proof.
  unfold filtered, notes_containing, contains_ci.
  destruct (JsString.eqb (toLowerCase (trim query)) []) eqn:E.
  - apply eqb_eq in E. rewrite E. rewrite filter_all; [reflexivity|].
    intros n. rewrite includes_empty. reflexivity.
  - apply filterM_matches_js.
Qed.

Lemma filtered_Subseq (ns vis : list jsval) (query : jsstring) :
  filtered toLowerCase ns query = Ret vis -> Subseq vis ns.
Proof.
  unfold filtered.
  destruct (JsString.eqb (toLowerCase (trim query)) []).
  - intros H. injection H as <-. apply Subseq_refl.
  - apply filterM_Subseq.
Qed.

End FilteredFacts.

(** C4, as stated, fails for a query with white space around a word: the
    code trims the query first.  With the notes of the scenarios of the
    specification, the query ["eggs "] shows "Groceries" ("milk, eggs"),
    although neither its title nor its content contains ["eggs "]. *)
Lemma filtered_trims_query :
  let ns := [Sample.groceries; Sample.taxes] in
  let q := u "eggs " in
  filtered toLowerCase_ascii (List.map note_js ns) q
    = Ret (List.map note_js [Sample.groceries]) /\
  view_as_stated toLowerCase_ascii q ns = [] /\
  filtered toLowerCase_ascii (List.map note_js ns) q
    <> Ret (List.map note_js (view_as_stated toLowerCase_ascii q ns)).
Proof.
  split; [vm_compute; reflexivity|].
  split; [vm_compute; reflexivity|].
  vm_compute. discriminate.
Qed.

(** C4 (amended): for every collection and query, the filtered view is the
    subsequence of the notes whose title or content contains the trimmed
    query as a substring up to case (the lower-cased text includes the
    lower-cased trimmed query); the ids of the view are a subsequence of
    the ids of the collection; and for an empty or white-space-only query
    the view is the whole collection.  [toLowerCase] is the one of the
    host, which maps the empty string to itself. *)
Theorem filtered_view :
  forall (toLowerCase : jsstring -> jsstring),
    toLowerCase [] = [] ->
    forall (ns : list Note.t) (q : jsstring),
      let view := notes_containing toLowerCase (trim q) ns in
      filtered toLowerCase (List.map note_js ns) q
        = Ret (List.map note_js view) /\
      (forall n, In n view <->
         In n ns /\
         ((exists pre post,
             toLowerCase (Note.title n)
             = pre ++ toLowerCase (trim q) ++ post) \/
          (exists pre post,
             toLowerCase (Note.content n)
             = pre ++ toLowerCase (trim q) ++ post))) /\
      Subseq view ns /\
      Subseq (List.map Note.id view) (List.map Note.id ns) /\
      (blank q = true -> view = ns).
Proof.
  intros lower Hempty ns q view.
  split; [apply filtered_js|].
  split.
  { intros n. unfold view, notes_containing, contains_ci.
    rewrite filter_In, orb_true_iff, !includes_iff. tauto. }
  split; [apply Subseq_filter|].
  split; [apply Subseq_map, Subseq_filter|].
  intros Hb. unfold view, notes_containing, contains_ci.
  rewrite (trim_blank q Hb), Hempty.
  apply filter_all. intros n. rewrite includes_empty. reflexivity.
Qed.

Lemma filtered_view_witness :
  toLowerCase_ascii [] = [] /\
  filtered toLowerCase_ascii
    (List.map note_js [Sample.groceries; Sample.taxes]) (u " EGGS ")
  = Ret (List.map note_js [Sample.groceries]).
Proof.
  split; [reflexivity|].
  destruct (filtered_view toLowerCase_ascii eq_refl
              [Sample.groceries; Sample.taxes] (u " EGGS ")) as [H _].
  rewrite H. vm_compute. reflexivity.
Defined.

(** C10: the query is trimmed before matching.  For every collection,
    whatever its elements, [filtered] gives the same result (the same list,
    or the same failure) for a query and for the trimmed query. *)
Theorem filtered_ignores_outer_whitespace :
  forall (toLowerCase : jsstring -> jsstring) (ns : list jsval)
         (q : jsstring),
    filtered toLowerCase ns q = filtered toLowerCase ns (trim q).
Proof.
  intros lower ns q. unfold filtered. rewrite trim_idempotent. reflexivity.
Qed.

(* ================================================================== *)
(** ** The two modes *)

(** C8 fails on the code.  The "New Note" button (line 115) and the "Edit"
    button (line 153) each close the other mode; the button of the empty
    state (line 137) only calls [setIsAdding(true)].  The empty state is
    also shown when the search matches nothing, so it can be used while a
    note is being edited: after the five interactions of
    [Trace.edit_then_empty_state] the add form is open and [editingId] is
    the id of the note. *)
Theorem empty_state_create_keeps_editing :
  exists st,
    run toLowerCase_ascii initial_state Trace.edit_then_empty_state
      = Ret (Some st) /\
    isAdding st = true /\
    editingId st = JStr (uid Sample.env) /\
    ~ modes_exclusive st.
Proof.
  eexists. split; [vm_compute; reflexivity|].
  split; [reflexivity|]. split; [reflexivity|].
  unfold modes_exclusive; simpl. intros H.
  specialize (H eq_refl). discriminate.
Qed.

(** Every other interaction keeps the two modes exclusive. *)
Lemma step_keeps_modes_exclusive :
  forall (toLowerCase : jsstring -> jsstring) (st st' : AppState) (e : Event),
    e <> ClickEmptyStateCreate ->
    modes_exclusive st ->
    step toLowerCase st e = Ret (Some st') ->
    modes_exclusive st'.
Proof.
  intros lower st st' e Hne Hex. unfold step, modes_exclusive in *.
  destruct (render_cards lower st) as [cards| |]; simpl; try discriminate.
  destruct e; simpl.
  - intros H; injection H as <-. reflexivity.
  - intros H; injection H as <-. exact Hex.
  - intros H; injection H as <-. reflexivity.
  - destruct (isAdding st) eqn:Ea; [|discriminate].
    unfold NoteForm_submit.
    destruct (JsString.eqb (trim (title values)) []); simpl;
      intros H; injection H as <-; simpl; [rewrite Ea; exact Hex|discriminate].
  - destruct (isAdding st); [|discriminate].
    intros H; injection H as <-. simpl. discriminate.
  - congruence.
  - destruct (nth_error cards i) as [card|]; [|discriminate].
    destruct (card_editing card); [discriminate|].
    intros H; injection H as <-. simpl. discriminate.
  - destruct (nth_error cards i) as [card|]; [|discriminate].
    destruct (card_editing card); [discriminate|].
    unfold handleDelete.
    destruct (delete_prompt (card_id card) (notes st)) as [msg| |];
      simpl; try discriminate.
    destruct (confirm msg).
    + destruct (remove_notes (card_id card) (notes st)) as [ns'| |];
        simpl; try discriminate.
      intros H; injection H as <-. exact Hex.
    + simpl. intros H; injection H as <-. exact Hex.
  - destruct (nth_error cards i) as [card|]; [|discriminate].
    destruct (card_editing card); [|discriminate].
    unfold NoteForm_submit.
    destruct (JsString.eqb (trim (title values)) []); simpl.
    + intros H; injection H as <-. exact Hex.
    + unfold handleUpdate.
      destruct (update_notes (card_id card) values now (notes st))
        as [ns'| |]; simpl; try discriminate.
      intros H; injection H as <-. reflexivity.
  - destruct (nth_error cards i) as [card|]; [|discriminate].
    destruct (card_editing card); [|discriminate].
    intros H; injection H as <-. reflexivity.
Qed.

(* ================================================================== *)
(** ** Timestamps in the reachable states *)

Lemma state_of_notes (st : AppState) (ns : list Note.t) :
  notes st = List.map note_js ns ->
  st = state_of ns (query st) (isAdding st) (editingId st).
Proof. destruct st; simpl; intros ->; reflexivity. Qed.

Section ReachFacts.

Variable toLowerCase : jsstring -> jsstring.

Lemma cards_js (editing : jsval) (view : list Note.t) :
  mapM (fun note =>
          nid <- get note (u "id") ;;
          ed <- strict_eq editing nid ;;
          Ret {| card_note := note; card_id := nid; card_editing := ed |})
       (List.map note_js view)
  = Ret (List.map (card_of editing) view).
Proof.
  induction view as [|n view IH]; simpl; [reflexivity|].
  rewrite IH. destruct editing; reflexivity.
Qed.

Lemma render_cards_js (ns : list Note.t) (q : jsstring) (adding : bool)
  (editing : jsval) :
  render_cards toLowerCase (state_of ns q adding editing) =
  Ret (List.map (card_of editing)
         (notes_containing toLowerCase (trim q) ns)).
Proof.
  unfold render_cards, state_of; simpl.
  rewrite filtered_js; simpl. apply cards_js.
Qed.

Lemma nth_card (editing : jsval) (view : list Note.t) (i : nat) :
  nth_error (List.map (card_of editing) view) i =
  option_map (card_of editing) (nth_error view i).
Proof.
  revert i. induction view as [|n view IH]; intros [|i]; simpl;
    try reflexivity. apply IH.
Qed.

Lemma notes_containing_In (q : jsstring) (ns : list Note.t) (n : Note.t) :
  In n (notes_containing toLowerCase q ns) -> In n ns.
Proof. unfold notes_containing. rewrite filter_In. tauto. Qed.

(** One interaction on a collection of notes of the data model returns,
    and leaves such a collection with ordered timestamps. *)
Lemma step_js (ns : list Note.t) (q : jsstring) (adding : bool)
  (editing : jsval) (e : Event) :
  Forall timestamps_ordered ns ->
  clock_not_behind (state_of ns q adding editing) e ->
  exists r,
    step toLowerCase (state_of ns q adding editing) e = Ret r /\
    forall st', r = Some st' ->
      exists ns', notes st' = List.map note_js ns' /\
                  Forall timestamps_ordered ns'.
Proof.
  intros Hord Hclock. unfold step. rewrite render_cards_js. simpl bind.
  set (view := notes_containing toLowerCase (trim q) ns).
  assert (Hview : forall n, In n view -> In n ns)
    by (intros n; apply notes_containing_In).
  destruct e.
  - eexists; split; [reflexivity|]. intros st' H; injection H as <-.
    exists ns; split; [reflexivity|exact Hord].
  - eexists; split; [reflexivity|]. intros st' H; injection H as <-.
    exists ns; split; [reflexivity|exact Hord].
  - eexists; split; [reflexivity|]. intros st' H; injection H as <-.
    exists ns; split; [reflexivity|exact Hord].
  - simpl isAdding. destruct adding.
    + unfold NoteForm_submit.
      destruct (JsString.eqb (trim (title values)) []); simpl.
      * eexists; split; [reflexivity|]. intros st' H; injection H as <-.
        exists ns; split; [reflexivity|exact Hord].
      * eexists; split; [reflexivity|]. intros st' H; injection H as <-.
        eexists (_ :: ns). split; [simpl; rewrite newNote_js; reflexivity|].
        constructor; [apply leb_refl|exact Hord].
    + eexists; split; [reflexivity|]. discriminate.
  - simpl isAdding. destruct adding.
    + eexists; split; [reflexivity|]. intros st' H; injection H as <-.
      exists ns; split; [reflexivity|exact Hord].
    + eexists; split; [reflexivity|]. discriminate.
  - destruct (List.map (card_of editing) view).
    + eexists; split; [reflexivity|]. intros st' H; injection H as <-.
      exists ns; split; [reflexivity|exact Hord].
    + eexists; split; [reflexivity|]. discriminate.
  - rewrite nth_card. destruct (nth_error view i) as [n|]; simpl.
    + destruct (match editing with
                | JStr s => JsString.eqb s (Note.id n) | _ => false end).
      * eexists; split; [reflexivity|]. discriminate.
      * eexists; split; [reflexivity|]. intros st' H; injection H as <-.
        exists ns; split; [reflexivity|exact Hord].
    + eexists; split; [reflexivity|]. discriminate.
  - rewrite nth_card. destruct (nth_error view i) as [n|]; simpl.
    + destruct (match editing with
                | JStr s => JsString.eqb s (Note.id n) | _ => false end).
      * eexists; split; [reflexivity|]. discriminate.
      * rewrite handleDelete_js. simpl.
        eexists; split; [reflexivity|]. intros st' H; injection H as <-.
        destruct (confirm (prompt_text (Note.id n) ns)).
        -- eexists; split; [reflexivity|].
           apply Forall_forall. intros m Hm. apply filter_In in Hm.
           rewrite Forall_forall in Hord. apply Hord, Hm.
        -- exists ns; split; [reflexivity|exact Hord].
    + eexists; split; [reflexivity|]. discriminate.
  - rewrite nth_card. destruct (nth_error view i) as [n|] eqn:En; simpl.
    + destruct (match editing with
                | JStr s => JsString.eqb s (Note.id n) | _ => false end).
      * unfold NoteForm_submit.
        destruct (JsString.eqb (trim (title values)) []); simpl.
        -- eexists; split; [reflexivity|]. intros st' H; injection H as <-.
           exists ns; split; [reflexivity|exact Hord].
        -- unfold handleUpdate. simpl notes. rewrite update_notes_js. simpl.
           eexists; split; [reflexivity|]. intros st' H; injection H as <-.
           eexists; split; [reflexivity|].
           apply Forall_forall. intros m Hm. apply in_map_iff in Hm.
           destruct Hm as [m0 [Hm0 Hin]]. rewrite Forall_forall in Hord.
           destruct (has_id (Note.id n) m0); subst m.
           ++ unfold timestamps_ordered, edit; simpl.
              apply Hclock. simpl. apply in_map. exact Hin.
           ++ apply Hord, Hin.
      * eexists; split; [reflexivity|]. discriminate.
    + eexists; split; [reflexivity|]. discriminate.
  - rewrite nth_card. destruct (nth_error view i) as [n|]; simpl.
    + destruct (match editing with
                | JStr s => JsString.eqb s (Note.id n) | _ => false end).
      * eexists; split; [reflexivity|]. intros st' H; injection H as <-.
        exists ns; split; [reflexivity|exact Hord].
      * eexists; split; [reflexivity|]. discriminate.
    + eexists; split; [reflexivity|]. discriminate.
Qed.

End ReachFacts.

(* ================================================================== *)
(** ** The JSON of the host: strings survive the round trip *)

Module HostJSONFacts.
Import HostJSON.

Lemma parse_string_body_cons (c : N) (r : jsstring) :
  parse_string_body (c :: r) =
  if (c =? 34)%N then Ret ([], r)
  else if (c =? 92)%N then
    match r with
    | [] => Throw
    | e :: r1 =>
        if (e =? 117)%N then
          match r1 with
          | a :: b :: c' :: d :: r2 =>
              match hex_value a, hex_value b, hex_value c', hex_value d with
              | Some x3, Some x2, Some x1, Some x0 =>
                  p <- parse_string_body r2 ;;
                  Ret ((x3 * 4096 + x2 * 256 + x1 * 16 + x0)%N :: fst p, snd p)
              | _, _, _, _ => Throw
              end
          | _ => Throw
          end
        else
          match unescape e with
          | Some ch => p <- parse_string_body r1 ;; Ret (ch :: fst p, snd p)
          | None => Throw
          end
    end
  else if (c <? 32)%N then Throw
  else p <- parse_string_body r ;; Ret (c :: fst p, snd p).
Proof. reflexivity. Qed.

Lemma quote_body_cons (c : N) (rest : jsstring) :
  quote_body (c :: rest) =
  if is_high_surrogate c then
    match rest with
    | d :: rest' =>
        if is_low_surrogate d then c :: d :: quote_body rest'
        else unicode_escape c ++ quote_body rest
    | [] => unicode_escape c
    end
  else if is_low_surrogate c then unicode_escape c ++ quote_body rest
  else quote_unit c ++ quote_body rest.
Proof. destruct rest; reflexivity. Qed.

Lemma hex_value_hex_digit (x : N) :
  (x < 16)%N -> hex_value (hex_digit x) = Some x.
Proof.
  intros H.
  assert (Hx : (x = 0 \/ x = 1 \/ x = 2 \/ x = 3 \/ x = 4 \/ x = 5 \/ x = 6
                \/ x = 7 \/ x = 8 \/ x = 9 \/ x = 10 \/ x = 11 \/ x = 12
                \/ x = 13 \/ x = 14 \/ x = 15)%N) by lia.
  repeat (destruct Hx as [-> | Hx]; [reflexivity|]). subst x. reflexivity.
Qed.

Lemma hex_recompose (c : N) :
  (c < 65536)%N ->
  ((c / 4096) mod 16 * 4096 + (c / 256) mod 16 * 256
   + (c / 16) mod 16 * 16 + c mod 16 = c)%N.
Proof.
  intros H.
  replace (c / 4096)%N with (c / 16 / 16 / 16)%N
    by (rewrite !N.Div0.div_div; reflexivity).
  replace (c / 256)%N with (c / 16 / 16)%N
    by (rewrite !N.Div0.div_div; reflexivity).
  pose proof (N.div_mod c 16) as H0.
  pose proof (N.div_mod (c / 16) 16) as H1.
  pose proof (N.div_mod (c / 16 / 16) 16) as H2.
  assert (H3 : (c / 16 / 16 / 16 < 16)%N).
  { rewrite !N.Div0.div_div. apply N.Div0.div_lt_upper_bound. simpl. lia. }
  rewrite (N.mod_small _ _ H3). lia.
Qed.

Lemma parse_unicode_escape (c : N) (tail : jsstring) :
  (c < 65536)%N ->
  parse_string_body (unicode_escape c ++ tail) =
  (p <- parse_string_body tail ;; Ret (c :: fst p, snd p)).
Proof.
  intros H. unfold unicode_escape. cbn [app].
  rewrite parse_string_body_cons.
  change (92 =? 34)%N with false. change (92 =? 92)%N with true.
  change (117 =? 117)%N with true. cbv iota.
  rewrite !hex_value_hex_digit by (apply N.mod_lt; discriminate).
  rewrite (hex_recompose c H). reflexivity.
Qed.

Lemma parse_literal (c : N) (tail : jsstring) :
  (c =? 34)%N = false -> (c =? 92)%N = false -> (c <? 32)%N = false ->
  parse_string_body (c :: tail) =
  (p <- parse_string_body tail ;; Ret (c :: fst p, snd p)).
Proof.
  intros H1 H2 H3. rewrite parse_string_body_cons, H1, H2, H3. reflexivity.
Qed.

Lemma surrogate_is_literal (c : N) :
  is_high_surrogate c || is_low_surrogate c = true ->
  (c =? 34)%N = false /\ (c =? 92)%N = false /\ (c <? 32)%N = false
  /\ (c < 65536)%N.
Proof.
  unfold is_high_surrogate, is_low_surrogate.
  rewrite orb_true_iff, !andb_true_iff, !N.leb_le.
  rewrite !N.eqb_neq, N.ltb_ge. lia.
Qed.

(** A quoted string, read back, is the string. *)
Lemma parse_quote_body (s rest : jsstring) :
  parse_string_body (quote_body s ++ 34%N :: rest) = Ret (s, rest).
Proof.
  remember (length s) as n eqn:Hn.
  assert (Hle : length s <= n) by lia. clear Hn.
  revert s Hle. induction n as [|n IH]; intros s Hle.
  { destruct s; [reflexivity | simpl in Hle; lia]. }
  destruct s as [|c r]; [reflexivity|].
  simpl in Hle.
  assert (IHr : parse_string_body (quote_body r ++ 34%N :: rest) = Ret (r, rest))
    by (apply IH; lia).
  rewrite quote_body_cons.
  destruct (is_high_surrogate c) eqn:Hh.
  - destruct (surrogate_is_literal c) as (E1 & E2 & E3 & E4);
      [rewrite Hh; reflexivity|].
    destruct r as [|d r'].
    + rewrite parse_unicode_escape by exact E4. reflexivity.
    + destruct (is_low_surrogate d) eqn:Hl.
      * destruct (surrogate_is_literal d) as (D1 & D2 & D3 & D4);
          [rewrite Hl; apply orb_true_r|].
        cbn [app]. rewrite (parse_literal c _ E1 E2 E3).
        rewrite (parse_literal d _ D1 D2 D3).
        rewrite IH by (simpl in Hle; lia). reflexivity.
      * rewrite <- app_assoc, parse_unicode_escape by exact E4.
        rewrite IHr. reflexivity.
  - destruct (is_low_surrogate c) eqn:Hl.
    + destruct (surrogate_is_literal c) as (E1 & E2 & E3 & E4);
        [rewrite Hl; apply orb_true_r|].
      rewrite <- app_assoc, parse_unicode_escape by exact E4.
      rewrite IHr. reflexivity.
    + unfold quote_unit.
      destruct (c =? 8)%N eqn:C8;
        [apply N.eqb_eq in C8; subst c; cbn [app];
         rewrite parse_string_body_cons; cbn; rewrite IHr; reflexivity|].
      destruct (c =? 9)%N eqn:C9;
        [apply N.eqb_eq in C9; subst c; cbn [app];
         rewrite parse_string_body_cons; cbn; rewrite IHr; reflexivity|].
      destruct (c =? 10)%N eqn:C10;
        [apply N.eqb_eq in C10; subst c; cbn [app];
         rewrite parse_string_body_cons; cbn; rewrite IHr; reflexivity|].
      destruct (c =? 12)%N eqn:C12;
        [apply N.eqb_eq in C12; subst c; cbn [app];
         rewrite parse_string_body_cons; cbn; rewrite IHr; reflexivity|].
      destruct (c =? 13)%N eqn:C13;
        [apply N.eqb_eq in C13; subst c; cbn [app];
         rewrite parse_string_body_cons; cbn; rewrite IHr; reflexivity|].
      destruct (c =? 34)%N eqn:C34;
        [apply N.eqb_eq in C34; subst c; cbn [app];
         rewrite parse_string_body_cons; cbn; rewrite IHr; reflexivity|].
      destruct (c =? 92)%N eqn:C92;
        [apply N.eqb_eq in C92; subst c; cbn [app];
         rewrite parse_string_body_cons; cbn; rewrite IHr; reflexivity|].
      destruct (c <? 32)%N eqn:C32.
      * apply N.ltb_lt in C32.
        rewrite <- app_assoc, parse_unicode_escape by lia.
        rewrite IHr. reflexivity.
      * cbn [app]. rewrite (parse_literal c _ C34 C92 C32).
        rewrite IHr. reflexivity.
Qed.

Lemma skip_ws_cons (c : N) (r : jsstring) :
  is_json_ws c = false -> skip_ws (c :: r) = c :: r.
Proof. intros H. simpl. rewrite H. reflexivity. Qed.

Lemma parse_value_S (f : nat) (s : jsstring) :
  parse_value (S f) s =
  match skip_ws s with
  | [] => Throw
  | c :: r =>
      if (c =? 34)%N then
        p <- parse_string_body r ;; Ret (JStr (fst p), snd p)
      else if (c =? 91)%N then
        match skip_ws r with
        | c' :: r' =>
            if (c' =? 93)%N then Ret (JArr [], r')
            else p <- parse_elements (parse_value f) (length r) r [] ;;
                 Ret (JArr (fst p), snd p)
        | [] => Throw
        end
      else if (c =? 123)%N then
        match skip_ws r with
        | c' :: r' =>
            if (c' =? 125)%N then Ret (JObj [], r')
            else p <- parse_members (parse_value f) (length r) r [] ;;
                 Ret (JObj (fst p), snd p)
        | [] => Throw
        end
      else if startsWith (u "null") (c :: r) then Ret (JNull, skipn 3 r)
      else if startsWith (u "true") (c :: r) then Ret (JBool true, skipn 3 r)
      else if startsWith (u "false") (c :: r)
           then Ret (JBool false, skipn 4 r)
      else if (c =? 45)%N || is_digit c then Unmodelled
      else Throw
  end.
Proof. reflexivity. Qed.

Lemma parse_members_S (pv : jsstring -> outcome (jsval * jsstring))
  (n : nat) (s : jsstring) (acc : list (jsstring * jsval)) :
  parse_members pv (S n) s acc =
  match skip_ws s with
  | c :: r =>
      if (c =? 34)%N then
        key <- parse_string_body r ;;
        match skip_ws (snd key) with
        | c1 :: r1 =>
            if (c1 =? 58)%N then
              p <- pv r1 ;;
              let acc' := define_prop (fst key) (fst p) acc in
              match skip_ws (snd p) with
              | c2 :: r2 =>
                  if (c2 =? 44)%N then parse_members pv n r2 acc'
                  else if (c2 =? 125)%N then Ret (acc', r2)
                  else Throw
              | [] => Throw
              end
            else Throw
        | [] => Throw
        end
      else Throw
  | [] => Throw
  end.
Proof. reflexivity. Qed.

Lemma parse_elements_S (pv : jsstring -> outcome (jsval * jsstring))
  (n : nat) (s : jsstring) (acc : list jsval) :
  parse_elements pv (S n) s acc =
  (p <- pv s ;;
   match skip_ws (snd p) with
   | c :: r' =>
       if (c =? 44)%N then parse_elements pv n r' (fst p :: acc)
       else if (c =? 93)%N then Ret (rev (fst p :: acc), r')
       else Throw
   | [] => Throw
   end).
Proof. reflexivity. Qed.

(** A quoted string at the head of a text is read as that string. *)
Lemma parse_value_quote (f : nat) (v rest : jsstring) :
  parse_value (S f) (quote v ++ rest) = Ret (JStr v, rest).
Proof.
  unfold quote. cbn [app]. rewrite parse_value_S.
  rewrite skip_ws_cons by reflexivity.
  change (34 =? 34)%N with true. cbv iota.
  rewrite <- app_assoc. cbn [app]. rewrite parse_quote_body. reflexivity.
Qed.

(** One member ["k":"v"] followed by a comma or the closing brace. *)
Lemma parse_member (f n : nat) (k v : jsstring) (c2 : N) (tail : jsstring)
  (acc : list (jsstring * jsval)) :
  is_json_ws c2 = false ->
  parse_members (parse_value (S f)) (S n)
    (member_text k v ++ c2 :: tail) acc =
  if (c2 =? 44)%N
  then parse_members (parse_value (S f)) n tail (define_prop k (JStr v) acc)
  else if (c2 =? 125)%N then Ret (define_prop k (JStr v) acc, tail)
  else Throw.
Proof.
  intros Hc2. unfold member_text.
  rewrite parse_members_S. unfold quote at 1. cbn [app].
  rewrite skip_ws_cons by reflexivity.
  change (34 =? 34)%N with true. cbv iota.
  rewrite <- !app_assoc. cbn [app]. rewrite parse_quote_body.
  cbn [bind fst snd]. change (u ":") with [58%N]. cbn [app].
  rewrite skip_ws_cons by reflexivity.
  change (58 =? 58)%N with true. cbv iota.
  rewrite parse_value_quote. cbn [bind fst snd].
  rewrite skip_ws_cons by exact Hc2. reflexivity.
Qed.

Lemma note_text_shape (n : Note.t) (rest : jsstring) :
  note_text n ++ rest =
  123%N ::
    member_text (u "id") (Note.id n) ++ 44%N ::
    member_text (u "title") (Note.title n) ++ 44%N ::
    member_text (u "content") (Note.content n) ++ 44%N ::
    member_text (u "createdAt") (Note.createdAt n) ++ 44%N ::
    member_text (u "updatedAt") (Note.updatedAt n) ++ 125%N :: rest.
Proof.
  unfold note_text. cbn [join].
  change (u "{") with [123%N]. change (u ",") with [44%N].
  change (u "}") with [125%N].
  rewrite <- !app_assoc. reflexivity.
Qed.

Lemma member_text_head (k v tail : jsstring) :
  exists t, member_text k v ++ tail = 34%N :: t.
Proof. unfold member_text, quote. cbn [app]. eexists. reflexivity. Qed.

(** The text of a note at the head of a text is read as that note. *)
Lemma parse_note (f : nat) (n : Note.t) (rest : jsstring) :
  parse_value (S (S f)) (note_text n ++ rest) = Ret (note_js n, rest).
Proof.
  rewrite note_text_shape. rewrite parse_value_S.
  rewrite skip_ws_cons by reflexivity.
  change (123 =? 34)%N with false. change (123 =? 91)%N with false.
  change (123 =? 123)%N with true. cbv iota.
  match goal with
  | |- context [skip_ws ?r] =>
      set (text := r);
      assert (Hlen : exists m, length text = S (S (S (S (S m)))))
  end.
  { exists (length text - 5). unfold text.
    rewrite !length_app. cbn [length]. rewrite !length_app. cbn [length].
    rewrite !length_app. cbn [length]. rewrite !length_app. cbn [length].
    rewrite !length_app. cbn [length]. lia. }
  destruct Hlen as [m Hm].
  destruct (member_text_head (u "id") (Note.id n)
              (44%N :: member_text (u "title") (Note.title n) ++ 44%N ::
               member_text (u "content") (Note.content n) ++ 44%N ::
               member_text (u "createdAt") (Note.createdAt n) ++ 44%N ::
               member_text (u "updatedAt") (Note.updatedAt n) ++ 125%N :: rest))
    as [t Ht].
  fold text in Ht. rewrite Ht at 1.
  rewrite skip_ws_cons by reflexivity.
  change (34 =? 125)%N with false. cbv iota.
  rewrite Hm. unfold text.
  rewrite parse_member by reflexivity. change (44 =? 44)%N with true. cbv iota.
  rewrite parse_member by reflexivity. change (44 =? 44)%N with true. cbv iota.
  rewrite parse_member by reflexivity. change (44 =? 44)%N with true. cbv iota.
  rewrite parse_member by reflexivity. change (44 =? 44)%N with true. cbv iota.
  rewrite parse_member by reflexivity.
  change (125 =? 44)%N with false. change (125 =? 125)%N with true. cbv iota.
  reflexivity.
Qed.

Lemma join_cons2 (sep p q : jsstring) (rest : list jsstring) :
  join sep (p :: q :: rest) = p ++ sep ++ join sep (q :: rest).
Proof. reflexivity. Qed.

Lemma note_text_head (n : Note.t) (tail : jsstring) :
  exists t, note_text n ++ tail = 123%N :: t.
Proof. rewrite note_text_shape. eexists. reflexivity. Qed.

Lemma join_notes_length (n0 : Note.t) (ns : list Note.t) :
  length (n0 :: ns) <= length (join (u ",") (List.map note_text (n0 :: ns))).
Proof.
  revert n0. induction ns as [|n1 ns IH]; intros n0.
  - cbn [List.map join]. destruct (note_text_head n0 []) as [t Ht].
    rewrite app_nil_r in Ht. rewrite Ht. simpl. lia.
  - cbn [List.map]. rewrite join_cons2. rewrite !length_app.
    specialize (IH n1). cbn [List.map] in IH.
    change (length (u ",")) with 1. cbn [length] in *. lia.
Qed.

(** The elements of the text of a non-empty collection are read as the
    collection. *)
Lemma parse_elements_notes (f : nat) (ns : list Note.t) :
  forall (n0 : Note.t) (k : nat) (acc : list jsval) (rest : jsstring),
    length ns < k ->
    parse_elements (parse_value (S (S f))) k
      (join (u ",") (List.map note_text (n0 :: ns)) ++ 93%N :: rest) acc
    = Ret (rev acc ++ List.map note_js (n0 :: ns), rest).
Proof.
  induction ns as [|n1 ns IH]; intros n0 k acc rest Hk;
    (destruct k as [|k]; [lia|]); rewrite parse_elements_S.
  - cbn [List.map join]. rewrite parse_note. cbn [bind fst snd].
    rewrite skip_ws_cons by reflexivity.
    change (93 =? 44)%N with false. change (93 =? 93)%N with true.
    cbv iota. reflexivity.
  - cbn [List.map]. rewrite join_cons2. rewrite <- !app_assoc.
    rewrite parse_note. cbn [bind fst snd].
    change (u ",") with [44%N]. cbn [app].
    rewrite skip_ws_cons by reflexivity.
    change (44 =? 44)%N with true. cbv iota.
    specialize (IH n1 k (note_js n0 :: acc) rest).
    cbn [List.map] in IH. change (u ",") with [44%N] in IH.
    rewrite IH by (simpl in Hk; lia).
    cbn [rev]. rewrite <- app_assoc. reflexivity.
Qed.

(** [JSON.stringify] of a collection of notes of the data model. *)
Lemma stringify_notes (ns : list Note.t) :
  stringify (JArr (List.map note_js ns)) = Ret (notes_text ns).
Proof.
  unfold stringify, notes_text. cbn [stringify_value].
  match goal with
  | |- context [bind (?F (List.map note_js ns)) _] =>
      assert (H : F (List.map note_js ns) = Ret (List.map note_text ns))
  end.
  { induction ns as [|n ns IH]; [reflexivity|].
    cbn [List.map]. cbn [bind stringify_value] in *.
    rewrite IH. reflexivity. }
  rewrite H. reflexivity.
Qed.

Lemma notes_text_nonempty (ns : list Note.t) :
  exists c rest, notes_text ns = c :: rest.
Proof. unfold notes_text. cbn. eexists; eexists; reflexivity. Qed.

(** [JSON.parse] reads the text of a collection as the collection. *)
Lemma parse_notes_text (ns : list Note.t) :
  parse (notes_text ns) = Ret (JArr (List.map note_js ns)).
Proof.
  destruct ns as [|n0 ns]; [reflexivity|].
  unfold parse, notes_text. change (u "[") with [91%N].
  change (u "]") with [93%N]. cbn [app].
  set (r := join (u ",") (List.map note_text (n0 :: ns)) ++ [93%N]).
  change (length (91%N :: r)) with (S (length r)).
  pose proof (join_notes_length n0 ns) as Hlen.
  assert (Hr : length (n0 :: ns) < length r).
  { unfold r. rewrite length_app. simpl length in *. lia. }
  destruct (length r) as [|m] eqn:Em; [simpl in Hr; lia|].
  rewrite parse_value_S. rewrite skip_ws_cons by reflexivity.
  change (91 =? 34)%N with false. change (91 =? 91)%N with true. cbv iota.
  assert (Hhead : exists t, r = 123%N :: t).
  { unfold r. cbn [List.map]. destruct ns as [|n1 ns'].
    - cbn [List.map join]. destruct (note_text_head n0 [93%N]) as [t Ht].
      exists t. exact Ht.
    - cbn [List.map]. rewrite join_cons2. rewrite <- app_assoc.
      apply note_text_head. }
  destruct Hhead as [t Ht]. rewrite Ht at 1.
  rewrite skip_ws_cons by reflexivity.
  change (123 =? 93)%N with false. cbv iota.
  rewrite Em. unfold r.
  assert (Hk : length ns < S m) by (simpl in Hr; lia).
  rewrite (parse_elements_notes m ns n0 (S m) [] [] Hk).
  reflexivity.
Qed.

End HostJSONFacts.

(* ================================================================== *)
(** ** Hydration *)

Section HydrationFacts.

Variable JSON_parse : jsstring -> outcome jsval.

(** What the first effect does, by what the host finds. *)
Lemma hydration_effect_eq (ls : LocalStorage) (st : AppState) :
  hydration_effect JSON_parse ls st =
  if getItem_throws ls then Ret st
  else match notes_app__notes ls with
       | Some (c :: rest) =>
           match JSON_parse (c :: rest) with
           | Ret (JArr items) => Ret (setNotes (fun _ => items) st)
           | Ret _ => Ret st
           | Throw => Ret st
           | Unmodelled => Unmodelled
           end
       | Some [] | None => Ret st
       end.
Proof.
  unfold hydration_effect, getItem.
  destruct (getItem_throws ls); [reflexivity|]. simpl.
  destruct (notes_app__notes ls) as [[|c rest]|]; try reflexivity.
  destruct (JSON_parse (c :: rest)) as [v| |]; try reflexivity.
  destruct v; reflexivity.
Qed.

End HydrationFacts.

(** C7: hydration at startup never throws.  It yields the parsed value
    when the stored text parses as an array, and the empty collection when
    the storage cannot be read, when the key is absent, when the text does
    not parse, and when it parses to something that is not an array.
    [JSON.parse] is the one of the host, which rejects the empty text. *)
Theorem hydration_cases :
  forall (JSON_parse : jsstring -> outcome jsval),
    JSON_parse [] = Throw ->
    forall ls : LocalStorage,
      let result := hydration_effect JSON_parse ls initial_state in
      result <> Throw /\
      (getItem_throws ls = true -> result = Ret initial_state) /\
      (getItem_throws ls = false -> notes_app__notes ls = None ->
       result = Ret initial_state) /\
      (forall raw,
         getItem_throws ls = false -> notes_app__notes ls = Some raw ->
         (JSON_parse raw = Throw -> result = Ret initial_state) /\
         (forall v, JSON_parse raw = Ret v -> isArray v = false ->
                    result = Ret initial_state) /\
         (forall items, JSON_parse raw = Ret (JArr items) ->
                        result = Ret {| notes := items; query := [];
                                        isAdding := false;
                                        editingId := JNull |})).
Proof.
  intros parse Hempty ls result. unfold result.
  rewrite hydration_effect_eq.
  split.
  { destruct (getItem_throws ls); [discriminate|].
    destruct (notes_app__notes ls) as [[|c rest]|]; try discriminate.
    destruct (parse (c :: rest)) as [v| |]; try discriminate.
    destruct v; discriminate. }
  split; [intros ->; reflexivity|].
  split; [intros -> ->; reflexivity|].
  intros raw -> ->.
  destruct raw as [|c rest].
  { rewrite Hempty. repeat split; try reflexivity; discriminate. }
  split; [intros ->; reflexivity|].
  split.
  - intros v -> Hv. destruct v; try reflexivity. discriminate.
  - intros items ->. reflexivity.
Qed.

Lemma hydration_cases_witness :
  HostJSON.parse [] = Throw /\
  hydration_effect HostJSON.parse
    (SampleStorage.holding (Some (notes_text [Sample.groceries; Sample.taxes])))
    initial_state
  = Ret (state_of [Sample.groceries; Sample.taxes] [] false JNull) /\
  hydration_effect HostJSON.parse
    (SampleStorage.holding (Some SampleStorage.object_text)) initial_state
  = Ret initial_state /\
  hydration_effect HostJSON.parse
    (SampleStorage.holding (Some SampleStorage.broken_text)) initial_state
  = Ret initial_state.
Proof.
  split; [reflexivity|].
  split; [|split].
  - destruct (hydration_cases HostJSON.parse eq_refl
                (SampleStorage.holding
                   (Some (notes_text [Sample.groceries; Sample.taxes]))))
      as (_ & _ & _ & H).
    destruct (H (notes_text [Sample.groceries; Sample.taxes])
                eq_refl eq_refl) as (_ & _ & Harr).
    apply (Harr (List.map note_js [Sample.groceries; Sample.taxes])).
    vm_compute. reflexivity.
  - destruct (hydration_cases HostJSON.parse eq_refl
                (SampleStorage.holding (Some SampleStorage.object_text)))
      as (_ & _ & _ & H).
    destruct (H SampleStorage.object_text eq_refl eq_refl) as (_ & Hother & _).
    apply (Hother (JObj [(u "notes", JArr [])])); vm_compute; reflexivity.
  - destruct (hydration_cases HostJSON.parse eq_refl
                (SampleStorage.holding (Some SampleStorage.broken_text)))
      as (_ & _ & _ & H).
    destruct (H SampleStorage.broken_text eq_refl eq_refl) as (Hthrow & _ & _).
    apply Hthrow. vm_compute. reflexivity.
Defined.

(** C9: when the stored text parses as an array, hydration adopts the
    array as it is.  Nothing is asked of the elements: whatever they are
    (not objects, objects without the fields of a note), each of them is in
    the collection at its position, and the collection has nothing else. *)
Theorem hydration_adopts_any_array :
  forall (JSON_parse : jsstring -> outcome jsval),
    JSON_parse [] = Throw ->
    forall (ls : LocalStorage) (raw : jsstring) (items : list jsval),
      getItem_throws ls = false ->
      notes_app__notes ls = Some raw ->
      JSON_parse raw = Ret (JArr items) ->
      exists st,
        hydration_effect JSON_parse ls initial_state = Ret st /\
        notes st = items /\
        (forall i, nth_error (notes st) i = nth_error items i) /\
        (forall v, In v items -> In v (notes st)).
Proof.
  intros parse Hempty ls raw items Hget Hraw Hparse.
  exists (setNotes (fun _ => items) initial_state).
  rewrite hydration_effect_eq, Hget, Hraw.
  destruct raw as [|c rest]; [rewrite Hempty in Hparse; discriminate|].
  rewrite Hparse. repeat split; auto.
Qed.

Lemma hydration_adopts_any_array_witness :
  HostJSON.parse [] = Throw /\
  getItem_throws (SampleStorage.holding (Some SampleStorage.junk_text)) = false /\
  notes_app__notes (SampleStorage.holding (Some SampleStorage.junk_text))
    = Some SampleStorage.junk_text /\
  HostJSON.parse SampleStorage.junk_text = Ret (JArr SampleStorage.junk) /\
  exists st,
    hydration_effect HostJSON.parse
      (SampleStorage.holding (Some SampleStorage.junk_text)) initial_state
    = Ret st /\
    notes st = SampleStorage.junk.
Proof.
  assert (Hp : HostJSON.parse SampleStorage.junk_text
               = Ret (JArr SampleStorage.junk)) by (vm_compute; reflexivity).
  split; [reflexivity|]. split; [reflexivity|]. split; [reflexivity|].
  split; [exact Hp|].
  destruct (hydration_adopts_any_array HostJSON.parse eq_refl
              (SampleStorage.holding (Some SampleStorage.junk_text))
              SampleStorage.junk_text SampleStorage.junk
              eq_refl eq_refl Hp) as (st & Hst & Hn & _).
  exists st. split; assumption.
Defined.

(* ================================================================== *)
(** ** Persist, then hydrate *)

(** Whatever the host's JSON is: if it reads back what it printed for the
    collection, the two effects give the collection back. *)
Lemma persist_then_hydrate_generic
  (JSON_parse : jsstring -> outcome jsval)
  (JSON_stringify : jsval -> outcome jsstring)
  (st : AppState) (ls : LocalStorage) (text : jsstring) :
  JSON_stringify (JArr (notes st)) = Ret text ->
  text <> [] ->
  JSON_parse text = Ret (JArr (notes st)) ->
  setItem_throws ls = false ->
  getItem_throws ls = false ->
  exists ls',
    persist_effect JSON_stringify st ls = Ret ls' /\
    notes_app__notes ls' = Some text /\
    hydration_effect JSON_parse ls' initial_state
    = Ret (setNotes (fun _ => notes st) initial_state).
Proof.
  intros Hs Hne Hp Hset Hget.
  exists {| notes_app__notes := Some text;
            getItem_throws := getItem_throws ls;
            setItem_throws := setItem_throws ls |}.
  split.
  { unfold persist_effect, setItem. rewrite Hs. simpl. rewrite Hset.
    reflexivity. }
  split; [reflexivity|].
  rewrite hydration_effect_eq. simpl. rewrite Hget.
  destruct text as [|c rest]; [congruence|]. rewrite Hp. reflexivity.
Qed.

(** C6: for every collection of notes, with a storage that accepts the
    write and the read, the persist effect stores the text of the
    collection, and hydration from that storage yields the same
    collection: the same notes with the same fields in the same order. *)
Theorem persist_then_hydrate :
  forall (ns : list Note.t) (q : jsstring) (adding : bool) (editing : jsval)
         (ls : LocalStorage),
    setItem_throws ls = false ->
    getItem_throws ls = false ->
    exists ls' st',
      persist_effect HostJSON.stringify (state_of ns q adding editing) ls
        = Ret ls' /\
      notes_app__notes ls' = Some (notes_text ns) /\
      hydration_effect HostJSON.parse ls' initial_state = Ret st' /\
      notes st' = notes (state_of ns q adding editing) /\
      st' = state_of ns [] false JNull.
Proof.
  intros ns q adding editing ls Hset Hget.
  destruct (persist_then_hydrate_generic HostJSON.parse HostJSON.stringify
              (state_of ns q adding editing) ls (notes_text ns))
    as (ls' & Hp & Hst & Hh); auto.
  - apply HostJSONFacts.stringify_notes.
  - destruct (HostJSONFacts.notes_text_nonempty ns) as (c & rest & ->).
    discriminate.
  - apply HostJSONFacts.parse_notes_text.
  - exists ls', (state_of ns [] false JNull).
    repeat split; assumption.
Qed.

Lemma persist_then_hydrate_witness :
  setItem_throws (SampleStorage.holding None) = false /\
  getItem_throws (SampleStorage.holding None) = false /\
  exists ls',
    persist_effect HostJSON.stringify
      (state_of [Sample.groceries; Sample.taxes] (u "eggs") true JNull)
      (SampleStorage.holding None) = Ret ls' /\
    hydration_effect HostJSON.parse ls' initial_state
    = Ret (state_of [Sample.groceries; Sample.taxes] [] false JNull).
Proof.
  split; [reflexivity|]. split; [reflexivity|].
  destruct (persist_then_hydrate [Sample.groceries; Sample.taxes]
              (u "eggs") true JNull (SampleStorage.holding None)
              eq_refl eq_refl) as (ls' & st' & Hp & _ & Hh & _ & Heq).
  exists ls'. split; [exact Hp|]. rewrite Hh, Heq. reflexivity.
Defined.

(* ================================================================== *)
(** ** The order of the two timestamps *)

(** C5, as stated, fails in three ways.  Hydration adopts a stored note
    whose [updatedAt] is before its [createdAt].  An edit saved while the
    clock reads less than at the creation leaves [updatedAt] before
    [createdAt].  An edit saved while the clock still reads the creation
    time leaves the two timestamps equal, so an edited note shows no
    "Updated" label. *)
Lemma timestamps_not_always_ordered :
  (exists st,
     hydration_effect HostJSON.parse
       (SampleStorage.holding (Some (notes_text [SampleStorage.backdated])))
       initial_state = Ret st /\
     notes st = [note_js SampleStorage.backdated] /\
     JsString.leb (Note.createdAt SampleStorage.backdated)
                  (Note.updatedAt SampleStorage.backdated) = false) /\
  (exists st n,
     run toLowerCase_ascii initial_state Trace.edit_with_clock_set_back
       = Ret (Some st) /\
     notes st = [note_js n] /\
     JsString.leb (Note.createdAt n) (Note.updatedAt n) = false) /\
  (exists st n,
     run toLowerCase_ascii initial_state Trace.edit_at_creation_time
       = Ret (Some st) /\
     notes st = [note_js n] /\
     Note.title n = u "Food" /\
     Note.createdAt n = Note.updatedAt n /\
     isEdited (note_js n) = Ret false).
Proof.
  split; [|split].
  - eexists. split; [vm_compute; reflexivity|]. split; reflexivity.
  - eexists.
    exists {| Note.id := uid Sample.env;
              Note.title := u "Groceries";
              Note.content := u "milk, eggs, bread";
              Note.createdAt := Sample.t2;
              Note.updatedAt := Sample.t1 |}.
    split; [vm_compute; reflexivity|]. split; reflexivity.
  - eexists.
    exists {| Note.id := uid Sample.env;
              Note.title := u "Food";
              Note.content := [];
              Note.createdAt := Sample.t2;
              Note.updatedAt := Sample.t2 |}.
    split; [vm_compute; reflexivity|].
    repeat split; reflexivity.
Qed.

(** C5 (amended): when the storage holds notes of the data model with
    [updatedAt >= createdAt] (or nothing usable) and the clock, at every
    saved edit, reads no less than the [createdAt] of the notes of the
    collection, [updatedAt >= createdAt] holds for every note in every
    reachable state.  The "Updated" label is rendered exactly when the two
    timestamps differ: not for a note just created, and after a saved edit
    exactly when the clock reading of the edit differs from [createdAt]. *)
Theorem reachable_timestamps_ordered :
  forall (toLowerCase : jsstring -> jsstring)
         (JSON_parse : jsstring -> outcome jsval) (st : AppState),
    Reachable toLowerCase JSON_parse st ->
    exists ns,
      notes st = List.map note_js ns /\
      Forall timestamps_ordered ns /\
      (forall n, In n ns ->
         isEdited (note_js n)
         = Ret (negb (JsString.eqb (Note.createdAt n) (Note.updatedAt n)))) /\
      (forall env values, isEdited (newNote env values) = Ret false) /\
      (forall values now n,
         isEdited (note_js (edit values now n))
         = Ret (negb (JsString.eqb (Note.createdAt n) now))).
Proof.
  intros lower parse st Hreach.
  assert (Hinv : exists ns, notes st = List.map note_js ns
                            /\ Forall timestamps_ordered ns).
  { induction Hreach as [ls st ns _ Hns Hord | st e st' _ IH Hclock Hstep].
    - exists ns. split; assumption.
    - destruct IH as (ns & Hns & Hord).
      rewrite (state_of_notes st ns Hns) in Hclock, Hstep.
      destruct (step_js lower ns (query st) (isAdding st) (editingId st) e
                  Hord Hclock) as (r & Hr & Hnext).
      rewrite Hr in Hstep. injection Hstep as ->.
      apply Hnext. reflexivity. }
  destruct Hinv as (ns & Hns & Hord).
  exists ns. split; [exact Hns|]. split; [exact Hord|].
  split; [intros n _; reflexivity|].
  split.
  - intros env values. unfold isEdited; simpl. rewrite eqb_refl. reflexivity.
  - intros values now n. reflexivity.
Qed.

Lemma reachable_timestamps_ordered_witness :
  let st := state_of [edit Sample.values Sample.t2 Sample.taxes]
                     [] false JNull in
  Reachable toLowerCase_ascii HostJSON.parse st /\
  exists ns, notes st = List.map note_js ns /\ Forall timestamps_ordered ns.
Proof.
  intros st.
  assert (H0 : Reachable toLowerCase_ascii HostJSON.parse
                 (state_of [Sample.taxes] [] false JNull)).
  { apply (@Reachable_hydrated toLowerCase_ascii HostJSON.parse
             (SampleStorage.holding (Some (notes_text [Sample.taxes])))
             (state_of [Sample.taxes] [] false JNull) [Sample.taxes]).
    - vm_compute. reflexivity.
    - reflexivity.
    - constructor; [vm_compute; reflexivity | constructor]. }
  assert (H1 : Reachable toLowerCase_ascii HostJSON.parse
                 (state_of [Sample.taxes] [] false
                    (JStr (Note.id Sample.taxes)))).
  { apply (@Reachable_step toLowerCase_ascii HostJSON.parse
             (state_of [Sample.taxes] [] false JNull) (ClickEdit 0) _ H0).
    - exact I.
    - vm_compute. reflexivity. }
  assert (H2 : Reachable toLowerCase_ascii HostJSON.parse st).
  { apply (@Reachable_step toLowerCase_ascii HostJSON.parse
             (state_of [Sample.taxes] [] false (JStr (Note.id Sample.taxes)))
             (SubmitEdit 0 Sample.values Sample.t2) _ H1).
    - simpl. intros n [Hn | []]. apply note_js_inj in Hn. subst n.
      vm_compute. reflexivity.
    - vm_compute. reflexivity. }
  split; [exact H2|].
  destruct (reachable_timestamps_ordered toLowerCase_ascii HostJSON.parse st H2)
    as (ns & Hns & Hord & _).
  exists ns. split; assumption.
Defined.

(* ================================================================== *)
(** ** The scenarios of section 8 *)

(** A title of white space only is rejected: nothing is added. *)
Lemma create_rejects_blank_title (env : CreateEnv) (values : FormValues)
  (st : AppState) :
  trim (title values) = [] -> Create env values st = Ret st.
Proof.
  intros H. unfold Create, NoteForm_submit. rewrite H. reflexivity.
Qed.

Example scenario_blank_title :
  Create Sample.env {| title := u "   "; content := Some (u "x") |}
         initial_state
  = Ret initial_state.
Proof. reflexivity. Qed.

(** Creating "Groceries" puts exactly this note at position 0, without
    the "Updated" label. *)
Example scenario_create :
  exists n,
    Create Sample.env {| title := u "Groceries";
                         content := Some (u "milk, eggs") |} initial_state
    = Ret (state_of [n] [] false JNull) /\
    Note.title n = u "Groceries" /\
    isEdited (note_js n) = Ret false.
Proof.
  exists Sample.groceries. repeat split; vm_compute; reflexivity.
Qed.

(** Searching "eggs" among "Groceries" and "Taxes" shows "Groceries"
    only. *)
Example scenario_search :
  filtered toLowerCase_ascii
    (List.map note_js [Sample.groceries; Sample.taxes]) (u "eggs")
  = Ret [note_js Sample.groceries].
Proof. vm_compute. reflexivity. Qed.

(** Editing the content of "Taxes" a day after its creation changes
    [updatedAt], keeps [createdAt], and the "Updated" label appears. *)
Example scenario_edit :
  exists n,
    handleUpdate (JStr (Note.id Sample.taxes))
      {| title := u "Taxes"; content := Some (u "file by May") |} Sample.t2
      (state_of [Sample.groceries; Sample.taxes] [] false
         (JStr (Note.id Sample.taxes)))
    = Ret (state_of [Sample.groceries; n] [] false JNull) /\
    Note.createdAt n = Sample.t1 /\
    Note.updatedAt n = Sample.t2 /\
    isEdited (note_js n) = Ret true.
Proof.
  eexists (edit _ _ Sample.taxes). repeat split; vm_compute; reflexivity.
Qed.

(** A declined deletion changes nothing; an accepted one removes the
    note. *)
Example scenario_delete :
  let st := state_of [Sample.groceries; Sample.taxes] [] false JNull in
  handleDelete Sample.decline (JStr (Note.id Sample.taxes)) st = Ret st /\
  handleDelete Sample.accept (JStr (Note.id Sample.taxes)) st
  = Ret (state_of [Sample.groceries] [] false JNull).
Proof. split; vm_compute; reflexivity. Qed.

(** What the missing validation of hydration leads to: an adopted [null]
    makes the next render throw at [note.id]. *)
Example render_after_junk :
  exists st,
    hydration_effect HostJSON.parse
      (SampleStorage.holding (Some SampleStorage.junk_text)) initial_state
    = Ret st /\
    render_cards toLowerCase_ascii st = Throw.
Proof.
  exists {| notes := SampleStorage.junk; query := [];
            isAdding := false; editingId := JNull |}.
  split; vm_compute; reflexivity.
Qed.

(* ================================================================== *)
(** ** Ids *)

Lemma digits_no_dash (d : Decimal.uint) : ~ In 45%N (digits d).
Proof.
  induction d; simpl; intros H; try tauto;
    destruct H as [H|H]; try discriminate; tauto.
Qed.

Lemma digits_inj (d d' : Decimal.uint) : digits d = digits d' -> d = d'.
Proof.
  revert d'. induction d; intros d'; destruct d'; simpl; intros H;
    try discriminate; try reflexivity;
    injection H as H; f_equal; auto.
Qed.

Lemma of_N_no_dash (n : N) : ~ In 45%N (of_N n).
Proof. apply digits_no_dash. Qed.

Lemma of_N_inj (a b : N) : of_N a = of_N b -> a = b.
Proof.
  intros H. apply DecimalN.Unsigned.to_uint_inj, digits_inj, H.
Qed.

Lemma of_N_head (n : N) : exists c rest, of_N n = c :: rest /\ c <> 45%N.
Proof.
  pose proof (of_N_no_dash n) as Hno.
  unfold of_N in *. destruct n as [|p].
  - exists 48%N, []. split; [reflexivity | discriminate].
  - simpl N.to_uint in *.
    pose proof (DecimalPos.Unsigned.to_uint_nonnil p) as Hnil.
    destruct (Pos.to_uint p); try contradiction; simpl in *;
      eexists; eexists; (split; [reflexivity | discriminate]).
Qed.

Lemma split_at_dash (a b s1 s2 : jsstring) :
  ~ In 45%N a -> ~ In 45%N b ->
  a ++ 45%N :: s1 = b ++ 45%N :: s2 -> a = b /\ s1 = s2.
Proof.
  revert b. induction a as [|x a IH]; intros [|y b] Ha Hb H; simpl in *.
  - injection H as ->. split; reflexivity.
  - injection H as <- _. tauto.
  - injection H as -> _. tauto.
  - injection H as -> H. destruct (IH b) as [-> ->]; auto.
Qed.

Lemma of_Z_dash_inj (z1 z2 : Z) (s1 s2 : jsstring) :
  of_Z z1 ++ u "-" ++ s1 = of_Z z2 ++ u "-" ++ s2 -> z1 = z2 /\ s1 = s2.
Proof.
  unfold of_Z. change (u "-") with [45%N].
  destruct (z1 <? 0)%Z eqn:E1; destruct (z2 <? 0)%Z eqn:E2;
    [apply Z.ltb_lt in E1; apply Z.ltb_lt in E2
    |apply Z.ltb_lt in E1; apply Z.ltb_ge in E2
    |apply Z.ltb_ge in E1; apply Z.ltb_lt in E2
    |apply Z.ltb_ge in E1; apply Z.ltb_ge in E2]; intros H.
  - simpl in H. injection H as H.
    apply split_at_dash in H; try apply of_N_no_dash.
    destruct H as [H ->]. apply of_N_inj in H. split; [lia | reflexivity].
  - destruct (of_N_head (Z.to_N z2)) as (c & rest & Hc & Hne).
    rewrite Hc in H. simpl in H. injection H as H _. congruence.
  - destruct (of_N_head (Z.to_N z1)) as (c & rest & Hc & Hne).
    rewrite Hc in H. simpl in H. injection H as H _. congruence.
  - apply split_at_dash in H; try apply of_N_no_dash.
    destruct H as [H ->]. apply of_N_inj in H. split; [lia | reflexivity].
Qed.

(** X1: two ids that [uid] generates are equal exactly when the clock
    reading is the same and the six characters taken from the random
    number are the same.  Notes created at different milliseconds never
    share an id. *)
Theorem uid_equal_iff :
  forall env1 env2 : CreateEnv,
    uid env1 = uid env2 <->
    Date_now env1 = Date_now env2 /\
    slice 2 8 (random_base36 env1) = slice 2 8 (random_base36 env2).
Proof.
  intros env1 env2. unfold uid. split.
  - apply of_Z_dash_inj.
  - intros [-> ->]. reflexivity.
Qed.

(* ================================================================== *)
(** ** The handlers on an id that is, or is not, in the collection *)

Lemma handleCreate_js (env : CreateEnv) (values : FormValues)
  (ns : list Note.t) (q : jsstring) (adding : bool) (editing : jsval) :
  handleCreate env values (state_of ns q adding editing)
  = state_of (created env values :: ns) q false editing.
Proof. reflexivity. Qed.

Lemma handleUpdate_js (id : jsstring) (values : FormValues) (now : jsstring)
  (ns : list Note.t) (q : jsstring) (adding : bool) (editing : jsval) :
  handleUpdate (JStr id) values now (state_of ns q adding editing)
  = Ret (state_of
           (List.map (fun n => if has_id id n then edit values now n else n) ns)
           q adding JNull).
Proof.
  unfold handleUpdate, state_of; simpl. rewrite update_notes_js. reflexivity.
Qed.

Lemma filter_absent_id (id : jsstring) (ns : list Note.t) :
  (forall n, In n ns -> Note.id n <> id) ->
  List.filter (fun n => negb (has_id id n)) ns = ns.
Proof.
  intros H. induction ns as [|n ns IH]; simpl; [reflexivity|].
  unfold has_id at 1.
  destruct (JsString.eqb (Note.id n) id) eqn:E.
  - apply eqb_eq in E. exfalso. apply (H n); [left; reflexivity | exact E].
  - simpl. f_equal. apply IH. intros m Hm. apply H. right. exact Hm.
Qed.

Lemma find_absent_id (id : jsstring) (ns : list Note.t) :
  (forall n, In n ns -> Note.id n <> id) ->
  List.find (has_id id) ns = None.
Proof.
  intros H. induction ns as [|n ns IH]; simpl; [reflexivity|].
  unfold has_id at 1.
  destruct (JsString.eqb (Note.id n) id) eqn:E.
  - apply eqb_eq in E. exfalso. apply (H n); [left; reflexivity | exact E].
  - apply IH. intros m Hm. apply H. right. exact Hm.
Qed.

(** X2: deleting the note that was just created gives the collection
    back, when the generated id was not in use: the accepted deletion of
    that id removes the new note and nothing else. *)
Theorem create_then_delete :
  forall (env : CreateEnv) (values : FormValues) (confirm : jsstring -> bool)
         (ns : list Note.t) (q : jsstring) (adding : bool) (editing : jsval),
    (forall n, In n ns -> Note.id n <> uid env) ->
    confirm (prompt_text (uid env) (created env values :: ns)) = true ->
    handleDelete confirm (JStr (uid env))
      (handleCreate env values (state_of ns q adding editing))
    = Ret (state_of ns q false editing).
Proof.
  intros env values confirm ns q adding editing Hfresh Hyes.
  rewrite handleCreate_js, handleDelete_js, Hyes.
  simpl List.filter. unfold has_id at 1. simpl Note.id.
  rewrite eqb_refl. simpl negb. cbv iota.
  rewrite (filter_absent_id (uid env) ns Hfresh). reflexivity.
Qed.

Lemma create_then_delete_witness :
  (forall n, In n [Sample.taxes] -> Note.id n <> uid Sample.env) /\
  Sample.accept
    (prompt_text (uid Sample.env)
       (created Sample.env Sample.values :: [Sample.taxes])) = true /\
  handleDelete Sample.accept (JStr (uid Sample.env))
    (handleCreate Sample.env Sample.values
       (state_of [Sample.taxes] [] true JNull))
  = Ret (state_of [Sample.taxes] [] false JNull).
Proof.
  assert (H : forall n, In n [Sample.taxes] -> Note.id n <> uid Sample.env).
  { intros n [<- | []]. vm_compute. discriminate. }
  split; [exact H|]. split; [reflexivity|].
  apply (create_then_delete Sample.env Sample.values Sample.accept
           [Sample.taxes] [] true JNull H eq_refl).
Defined.

(** X3: an update for an id that no note carries changes no note; it
    still closes the edit mode. *)
Theorem update_absent_id :
  forall (id : jsstring) (values : FormValues) (now : jsstring)
         (ns : list Note.t) (q : jsstring) (adding : bool) (editing : jsval),
    (forall n, In n ns -> Note.id n <> id) ->
    handleUpdate (JStr id) values now (state_of ns q adding editing)
    = Ret (state_of ns q adding JNull).
Proof.
  intros id values now ns q adding editing Habs.
  rewrite handleUpdate_js. do 2 f_equal.
  rewrite <- (map_id ns) at 2. apply map_ext_in. intros n Hn.
  unfold has_id. destruct (JsString.eqb (Note.id n) id) eqn:E; [|reflexivity].
  apply eqb_eq in E. exfalso. exact (Habs n Hn E).
Qed.

Lemma update_absent_id_witness :
  (forall n, In n [Sample.groceries; Sample.taxes] -> Note.id n <> u "gone") /\
  handleUpdate (JStr (u "gone")) Sample.values Sample.t2
    (state_of [Sample.groceries; Sample.taxes] [] false (JStr (u "gone")))
  = Ret (state_of [Sample.groceries; Sample.taxes] [] false JNull).
Proof.
  assert (H : forall n, In n [Sample.groceries; Sample.taxes] ->
                        Note.id n <> u "gone").
  { intros n [<- | [<- | []]]; vm_compute; discriminate. }
  split; [exact H|].
  apply (update_absent_id (u "gone") Sample.values Sample.t2
           [Sample.groceries; Sample.taxes] [] false (JStr (u "gone")) H).
Defined.

(** X4: a deletion for an id that no note carries asks about "this
    note", and leaves the state as it is whatever the answer. *)
Theorem delete_absent_id :
  forall (confirm : jsstring -> bool) (id : jsstring)
         (ns : list Note.t) (q : jsstring) (adding : bool) (editing : jsval),
    (forall n, In n ns -> Note.id n <> id) ->
    delete_prompt (JStr id) (List.map note_js ns)
    = Ret (u "Delete this note? This cannot be undone.") /\
    handleDelete confirm (JStr id) (state_of ns q adding editing)
    = Ret (state_of ns q adding editing).
Proof.
  intros confirm id ns q adding editing Habs. split.
  - rewrite delete_prompt_js. unfold prompt_text, prompt_name.
    rewrite (find_absent_id id ns Habs). reflexivity.
  - rewrite handleDelete_js, (filter_absent_id id ns Habs).
    destruct (confirm (prompt_text id ns)); reflexivity.
Qed.

Lemma delete_absent_id_witness :
  (forall n, In n [Sample.groceries] -> Note.id n <> u "gone") /\
  handleDelete Sample.accept (JStr (u "gone"))
    (state_of [Sample.groceries] [] false JNull)
  = Ret (state_of [Sample.groceries] [] false JNull).
Proof.
  assert (H : forall n, In n [Sample.groceries] -> Note.id n <> u "gone").
  { intros n [<- | []]; vm_compute; discriminate. }
  split; [exact H|].
  apply (delete_absent_id Sample.accept (u "gone") [Sample.groceries]
           [] false JNull H).
Defined.

(** X5: the prompt of a deletion names the first note of the collection
    that carries the id: its title between double quotes, or "this note"
    when that title is empty. *)
Theorem delete_prompt_names_first :
  forall (id : jsstring) (before after : list Note.t) (n : Note.t),
    (forall m, In m before -> Note.id m <> id) ->
    Note.id n = id ->
    delete_prompt (JStr id) (List.map note_js (before ++ n :: after))
    = Ret (u "Delete " ++
           match Note.title n with
           | [] => u "this note"
           | _ :: _ => 34%N :: Note.title n ++ [34%N]
           end ++ u "? This cannot be undone.").
Proof.
  intros id before after n Hbefore Hid.
  rewrite delete_prompt_js. unfold prompt_text, prompt_name.
  assert (Hfind : List.find (has_id id) (before ++ n :: after) = Some n).
  { induction before as [|m before IH]; simpl.
    - unfold has_id. rewrite Hid, eqb_refl. reflexivity.
    - unfold has_id at 1.
      destruct (JsString.eqb (Note.id m) id) eqn:E.
      + apply eqb_eq in E. exfalso.
        apply (Hbefore m); [left; reflexivity | exact E].
      + apply IH. intros k Hk. apply Hbefore. right. exact Hk. }
  rewrite Hfind. reflexivity.
Qed.

Lemma delete_prompt_names_first_witness :
  (forall m, In m [Sample.taxes] -> Note.id m <> Note.id Sample.groceries) /\
  Note.id Sample.groceries = Note.id Sample.groceries /\
  delete_prompt (JStr (Note.id Sample.groceries))
    (List.map note_js ([Sample.taxes] ++ Sample.groceries :: [Sample.twin]))
  = Ret (u "Delete " ++ (34%N :: u "Groceries" ++ [34%N])
         ++ u "? This cannot be undone.").
Proof.
  assert (H : forall m, In m [Sample.taxes] ->
                        Note.id m <> Note.id Sample.groceries).
  { intros m [<- | []]; vm_compute; discriminate. }
  split; [exact H|]. split; [reflexivity|].
  apply (delete_prompt_names_first (Note.id Sample.groceries)
           [Sample.taxes] [Sample.twin] Sample.groceries H eq_refl).
Defined.

(* ================================================================== *)
(** ** The filtered view under typing, deleting and creating *)

Lemma includes_trans (a b c : jsstring) :
  includes a b = true -> includes b c = true -> includes a c = true.
Proof.
  rewrite !includes_iff. intros (p1 & s1 & ->) (p2 & s2 & ->).
  exists (p1 ++ p2), (s2 ++ s1). rewrite <- !app_assoc. reflexivity.
Qed.

Lemma filter_implied {A} (f g : A -> bool) (l : list A) :
  (forall x, f x = true -> g x = true) ->
  List.filter f (List.filter g l) = List.filter f l.
Proof.
  intros H. induction l as [|x l IH]; simpl; [reflexivity|].
  destruct (g x) eqn:G; simpl.
  - rewrite IH. reflexivity.
  - destruct (f x) eqn:F; [|exact IH].
    apply H in F. congruence.
Qed.

Lemma filter_comm {A} (f g : A -> bool) (l : list A) :
  List.filter f (List.filter g l) = List.filter g (List.filter f l).
Proof.
  induction l as [|x l IH]; simpl; [reflexivity|].
  destruct (g x) eqn:G; destruct (f x) eqn:F; simpl;
    rewrite ?G, ?F, IH; reflexivity.
Qed.

(** X6: a query whose normal form (trimmed, lower-cased) contains the
    normal form of another query shows a subsequence of what the other
    shows, and filtering the other view by it gives the same as filtering
    the whole collection: typing on narrows the list. *)
Theorem filtered_narrows :
  forall (toLowerCase : jsstring -> jsstring) (ns : list Note.t)
         (q q' : jsstring),
    includes (toLowerCase (trim q')) (toLowerCase (trim q)) = true ->
    exists view view',
      filtered toLowerCase (List.map note_js ns) q
        = Ret (List.map note_js view) /\
      filtered toLowerCase (List.map note_js ns) q'
        = Ret (List.map note_js view') /\
      Subseq view' view /\
      filtered toLowerCase (List.map note_js view) q'
        = Ret (List.map note_js view').
Proof.
  intros lower ns q q' Hinc.
  exists (notes_containing lower (trim q) ns),
         (notes_containing lower (trim q') ns).
  split; [apply filtered_js|]. split; [apply filtered_js|].
  assert (Hsame : notes_containing lower (trim q')
                    (notes_containing lower (trim q) ns)
                  = notes_containing lower (trim q') ns).
  { unfold notes_containing. apply filter_implied. intros n.
    unfold contains_ci. rewrite !orb_true_iff.
    intros [H|H]; [left|right]; exact (includes_trans _ _ _ H Hinc). }
  split.
  - rewrite <- Hsame. apply Subseq_filter.
  - rewrite filtered_js, Hsame. reflexivity.
Qed.

Lemma filtered_narrows_witness :
  includes (toLowerCase_ascii (trim (u "Egg")))
           (toLowerCase_ascii (trim (u " e "))) = true /\
  exists view view',
    filtered toLowerCase_ascii
      (List.map note_js [Sample.groceries; Sample.taxes]) (u " e ")
      = Ret (List.map note_js view) /\
    filtered toLowerCase_ascii
      (List.map note_js [Sample.groceries; Sample.taxes]) (u "Egg")
      = Ret (List.map note_js view') /\
    Subseq view' view.
Proof.
  split; [reflexivity|].
  destruct (filtered_narrows toLowerCase_ascii
              [Sample.groceries; Sample.taxes] (u " e ") (u "Egg") eq_refl)
    as (view & view' & H1 & H2 & H3 & _).
  exists view, view'. repeat split; assumption.
Defined.

(** X7: an accepted deletion changes the filtered view only by taking
    out the notes with the deleted id: the view of the new collection is
    the old view without them, for every query. *)
Theorem view_after_delete :
  forall (toLowerCase : jsstring -> jsstring) (confirm : jsstring -> bool)
         (id : jsstring) (ns : list Note.t)
         (q : jsstring) (adding : bool) (editing : jsval),
    confirm (prompt_text id ns) = true ->
    exists st' view,
      handleDelete confirm (JStr id) (state_of ns q adding editing)
        = Ret st' /\
      filtered toLowerCase (List.map note_js ns) q
        = Ret (List.map note_js view) /\
      filtered toLowerCase (notes st') (query st')
        = Ret (List.map note_js (List.filter (other_than id) view)).
Proof.
  intros lower confirm id ns q adding editing Hyes.
  exists (state_of (List.filter (fun n => negb (has_id id n)) ns)
            q adding editing),
         (notes_containing lower (trim q) ns).
  split; [rewrite handleDelete_js, Hyes; reflexivity|].
  split; [apply filtered_js|].
  simpl notes. simpl query. rewrite filtered_js.
  unfold notes_containing, other_than. rewrite filter_comm. reflexivity.
Qed.

Lemma view_after_delete_witness :
  Sample.accept
    (prompt_text (Note.id Sample.taxes) [Sample.groceries; Sample.taxes])
  = true /\
  exists st' view,
    handleDelete Sample.accept (JStr (Note.id Sample.taxes))
      (state_of [Sample.groceries; Sample.taxes] (u "a") false JNull)
      = Ret st' /\
    filtered toLowerCase_ascii
      (List.map note_js [Sample.groceries; Sample.taxes]) (u "a")
      = Ret (List.map note_js view) /\
    filtered toLowerCase_ascii (notes st') (query st')
      = Ret (List.map note_js
               (List.filter (other_than (Note.id Sample.taxes)) view)).
Proof.
  split; [reflexivity|].
  apply (view_after_delete toLowerCase_ascii Sample.accept
           (Note.id Sample.taxes) [Sample.groceries; Sample.taxes]
           (u "a") false JNull eq_refl).
Defined.

(** X8: a created note enters the filtered view only when its trimmed
    title or content contains the current query: while a search is
    active, a note just created can be absent from the list.  The notes
    shown before stay, in order, behind it. *)
Theorem view_after_create :
  forall (toLowerCase : jsstring -> jsstring) (env : CreateEnv)
         (values : FormValues) (ns : list Note.t)
         (q : jsstring) (adding : bool) (editing : jsval),
    let st' := handleCreate env values (state_of ns q adding editing) in
    let view := notes_containing toLowerCase (trim q) ns in
    filtered toLowerCase (notes st') (query st')
    = Ret (List.map note_js
             (if contains_ci toLowerCase (trim (title values)) (trim q)
                 || contains_ci toLowerCase (trimmed_content values) (trim q)
              then created env values :: view
              else view)).
Proof.
  intros lower env values ns q adding editing st' view.
  unfold st'. rewrite handleCreate_js. unfold state_of. cbn [notes query].
  rewrite filtered_js. unfold notes_containing at 1. cbn [List.filter].
  unfold created at 1 2. cbn [Note.title Note.content].
  fold (notes_containing lower (trim q) ns).
  destruct (contains_ci lower (trim (title values)) (trim q)
            || contains_ci lower (trimmed_content values) (trim q));
    reflexivity.
Qed.

(* ================================================================== *)
(** ** What one interaction does to a collection of notes *)

Section StepFacts.

Variable toLowerCase : jsstring -> jsstring.

(** On notes of the data model an interaction returns, and the collection
    it leaves is the same one, or has a validated new note in front, or
    has lost the notes with the id of one of its notes, or has the notes
    with the id of one of its notes edited with validated values. *)
Lemma step_shape (ns : list Note.t) (q : jsstring) (adding : bool)
  (editing : jsval) (e : Event) :
  exists r,
    step toLowerCase (state_of ns q adding editing) e = Ret r /\
    forall st', r = Some st' ->
      exists ns',
        notes st' = List.map note_js ns' /\
        (ns' = ns \/
         (exists values env,
            e = SubmitAdd values env /\ trim (title values) <> [] /\
            ns' = created env values :: ns) \/
         (exists n, In n ns /\
            ns' = List.filter (other_than (Note.id n)) ns) \/
         (exists n i values now,
            e = SubmitEdit i values now /\ In n ns /\
            trim (title values) <> [] /\
            ns' = List.map (fun m => if has_id (Note.id n) m
                                     then edit values now m else m) ns)).
Proof.
  unfold step. rewrite render_cards_js. simpl bind.
  set (view := notes_containing toLowerCase (trim q) ns).
  assert (Hview : forall n, In n view -> In n ns)
    by (intros n; apply notes_containing_In).
  assert (Hsame : forall st' : AppState,
            notes st' = List.map note_js ns ->
            exists ns', notes st' = List.map note_js ns' /\
              (ns' = ns \/
               (exists values env,
                  e = SubmitAdd values env /\ trim (title values) <> [] /\
                  ns' = created env values :: ns) \/
               (exists n, In n ns /\
                  ns' = List.filter (other_than (Note.id n)) ns) \/
               (exists n i values now,
                  e = SubmitEdit i values now /\ In n ns /\
                  trim (title values) <> [] /\
                  ns' = List.map (fun m => if has_id (Note.id n) m
                                           then edit values now m else m) ns)))
    by (intros st' H; exists ns; split; [exact H | left; reflexivity]).
  destruct e.
  - eexists; split; [reflexivity|]. intros st' H; injection H as <-.
    apply Hsame. reflexivity.
  - eexists; split; [reflexivity|]. intros st' H; injection H as <-.
    apply Hsame. reflexivity.
  - eexists; split; [reflexivity|]. intros st' H; injection H as <-.
    apply Hsame. reflexivity.
  - simpl isAdding. destruct adding.
    + unfold NoteForm_submit.
      destruct (JsString.eqb (trim (title values)) []) eqn:E; simpl.
      * eexists; split; [reflexivity|]. intros st' H; injection H as <-.
        apply Hsame. reflexivity.
      * apply eqb_neq in E.
        eexists; split; [reflexivity|]. intros st' H; injection H as <-.
        exists (created env values :: ns). split; [reflexivity|].
        right; left. exists values, env. repeat split. exact E.
    + eexists; split; [reflexivity|]. discriminate.
  - simpl isAdding. destruct adding.
    + eexists; split; [reflexivity|]. intros st' H; injection H as <-.
      apply Hsame. reflexivity.
    + eexists; split; [reflexivity|]. discriminate.
  - destruct (List.map (card_of editing) view).
    + eexists; split; [reflexivity|]. intros st' H; injection H as <-.
      apply Hsame. reflexivity.
    + eexists; split; [reflexivity|]. discriminate.
  - rewrite nth_card. destruct (nth_error view i) as [n|]; simpl.
    + destruct (match editing with
                | JStr s => JsString.eqb s (Note.id n) | _ => false end).
      * eexists; split; [reflexivity|]. discriminate.
      * eexists; split; [reflexivity|]. intros st' H; injection H as <-.
        apply Hsame. reflexivity.
    + eexists; split; [reflexivity|]. discriminate.
  - rewrite nth_card. destruct (nth_error view i) as [n|] eqn:En; simpl.
    + destruct (match editing with
                | JStr s => JsString.eqb s (Note.id n) | _ => false end).
      * eexists; split; [reflexivity|]. discriminate.
      * rewrite handleDelete_js. simpl.
        eexists; split; [reflexivity|]. intros st' H; injection H as <-.
        destruct (confirm (prompt_text (Note.id n) ns)).
        -- eexists; split; [reflexivity|]. right; right; left.
           exists n. split; [|reflexivity].
           apply Hview. eapply nth_error_In. exact En.
        -- apply Hsame. reflexivity.
    + eexists; split; [reflexivity|]. discriminate.
  - rewrite nth_card. destruct (nth_error view i) as [n|] eqn:En; simpl.
    + destruct (match editing with
                | JStr s => JsString.eqb s (Note.id n) | _ => false end).
      * unfold NoteForm_submit.
        destruct (JsString.eqb (trim (title values)) []) eqn:E; simpl.
        -- eexists; split; [reflexivity|]. intros st' H; injection H as <-.
           apply Hsame. reflexivity.
        -- apply eqb_neq in E. rewrite handleUpdate_js. simpl.
           eexists; split; [reflexivity|]. intros st' H; injection H as <-.
           eexists; split; [reflexivity|]. right; right; right.
           exists n, i, values, now. repeat split; [|exact E].
           apply Hview. eapply nth_error_In. exact En.
      * eexists; split; [reflexivity|]. discriminate.
    + eexists; split; [reflexivity|]. discriminate.
  - rewrite nth_card. destruct (nth_error view i) as [n|]; simpl.
    + destruct (match editing with
                | JStr s => JsString.eqb s (Note.id n) | _ => false end).
      * eexists; split; [reflexivity|]. intros st' H; injection H as <-.
        apply Hsame. reflexivity.
      * eexists; split; [reflexivity|]. discriminate.
    + eexists; split; [reflexivity|]. discriminate.
Qed.

End StepFacts.

Lemma NoDup_ids_filter (f : Note.t -> bool) (ns : list Note.t) :
  NoDup (List.map Note.id ns) -> NoDup (List.map Note.id (List.filter f ns)).
Proof.
  induction ns as [|n ns IH]; simpl; intros H; [constructor|].
  inversion H as [|? ? Hnot Hrest]; subst.
  destruct (f n); simpl; [|auto].
  constructor; [|auto].
  intros Hin. apply Hnot. apply in_map_iff in Hin.
  destruct Hin as (m & Hm & Hin). apply filter_In in Hin.
  apply in_map_iff. exists m. tauto.
Qed.

Lemma ids_after_edit (id : jsstring) (values : FormValues) (now : jsstring)
  (ns : list Note.t) :
  List.map Note.id
    (List.map (fun m => if has_id id m then edit values now m else m) ns)
  = List.map Note.id ns.
Proof.
  rewrite map_map. apply map_ext. intros m. destruct (has_id id m); reflexivity.
Qed.

Lemma trimmed_content_trimmed (values : FormValues) :
  trim (trimmed_content values) = trimmed_content values.
Proof.
  unfold trimmed_content. destruct (content values) as [c|];
    [apply trim_idempotent | reflexivity].
Qed.

(** X9: on a collection of notes of the data model no sequence of
    interactions throws: the filter, the list of cards and every handler
    return, until an event names a control that is not on screen. *)
Theorem run_never_throws :
  forall (toLowerCase : jsstring -> jsstring) (es : list Event)
         (ns : list Note.t) (q : jsstring) (adding : bool) (editing : jsval),
    exists r, run toLowerCase (state_of ns q adding editing) es = Ret r.
Proof.
  intros lower es. induction es as [|e es IH]; intros ns q adding editing.
  - eexists. reflexivity.
  - simpl. destruct (step_shape lower ns q adding editing e)
      as (r & Hr & Hnext).
    rewrite Hr. simpl. destruct r as [st'|]; [|eexists; reflexivity].
    destruct (Hnext st' eq_refl) as (ns' & Hns' & _).
    rewrite (state_of_notes st' ns' Hns'). apply IH.
Qed.

(** X10: the ids of the collection stay pairwise distinct through every
    interaction, provided the id generated by a creation is not in use:
    an update keeps the ids, a deletion removes some, and nothing else
    touches them. *)
Theorem step_keeps_ids_distinct :
  forall (toLowerCase : jsstring -> jsstring) (ns : list Note.t)
         (q : jsstring) (adding : bool) (editing : jsval)
         (e : Event) (st' : AppState),
    NoDup (List.map Note.id ns) ->
    uid_unused (state_of ns q adding editing) e ->
    step toLowerCase (state_of ns q adding editing) e = Ret (Some st') ->
    exists ns',
      notes st' = List.map note_js ns' /\ NoDup (List.map Note.id ns').
Proof.
  intros lower ns q adding editing e st' Hnd Hfresh Hstep.
  destruct (step_shape lower ns q adding editing e) as (r & Hr & Hnext).
  rewrite Hr in Hstep. injection Hstep as ->.
  destruct (Hnext st' eq_refl) as (ns' & Hns' & Hshape).
  exists ns'. split; [exact Hns'|].
  destruct Hshape as [-> | [(values & env & -> & _ & ->)
                     | [(n & _ & ->) | (n & i & values & now & _ & _ & _ & ->)]]].
  - exact Hnd.
  - simpl. constructor; [|exact Hnd].
    intros Hin. apply in_map_iff in Hin. destruct Hin as (m & Hm & Hin).
    apply (Hfresh m); [|exact Hm].
    simpl. apply in_map. exact Hin.
  - apply NoDup_ids_filter. exact Hnd.
  - rewrite ids_after_edit. exact Hnd.
Qed.

Lemma step_keeps_ids_distinct_witness :
  NoDup (List.map Note.id [Sample.taxes]) /\
  uid_unused (state_of [Sample.taxes] [] true JNull)
             (SubmitAdd Sample.values Sample.env) /\
  exists ns',
    List.map note_js [created Sample.env Sample.values; Sample.taxes]
    = List.map note_js ns' /\
    NoDup (List.map Note.id ns').
Proof.
  assert (Hnd : NoDup (List.map Note.id [Sample.taxes]))
    by (constructor; [intros [] | constructor]).
  assert (Hfresh : uid_unused (state_of [Sample.taxes] [] true JNull)
                              (SubmitAdd Sample.values Sample.env)).
  { simpl. intros n [Hn | []]. apply note_js_inj in Hn. subst n.
    vm_compute. discriminate. }
  split; [exact Hnd|]. split; [exact Hfresh|].
  apply (step_keeps_ids_distinct toLowerCase_ascii [Sample.taxes] [] true
           JNull (SubmitAdd Sample.values Sample.env)
           (state_of [created Sample.env Sample.values; Sample.taxes]
              [] false JNull) Hnd Hfresh).
  vm_compute. reflexivity.
Defined.

Lemma created_tidy (env : CreateEnv) (values : FormValues) :
  trim (title values) <> [] -> tidy (created env values).
Proof.
  intros H. unfold tidy; simpl. repeat split.
  - apply trim_idempotent.
  - exact H.
  - apply trimmed_content_trimmed.
Qed.

Lemma edit_tidy (values : FormValues) (now : jsstring) (n : Note.t) :
  trim (title values) <> [] -> tidy (edit values now n).
Proof.
  intros H. unfold tidy; simpl. repeat split.
  - apply trim_idempotent.
  - exact H.
  - apply trimmed_content_trimmed.
Qed.

(** X11: the validation of the form reaches the collection: when every
    note has a trimmed, non-empty title and a trimmed content, so has
    every note after any interaction. *)
Theorem step_keeps_notes_tidy :
  forall (toLowerCase : jsstring -> jsstring) (ns : list Note.t)
         (q : jsstring) (adding : bool) (editing : jsval)
         (e : Event) (st' : AppState),
    Forall tidy ns ->
    step toLowerCase (state_of ns q adding editing) e = Ret (Some st') ->
    exists ns', notes st' = List.map note_js ns' /\ Forall tidy ns'.
Proof.
  intros lower ns q adding editing e st' Htidy Hstep.
  destruct (step_shape lower ns q adding editing e) as (r & Hr & Hnext).
  rewrite Hr in Hstep. injection Hstep as ->.
  destruct (Hnext st' eq_refl) as (ns' & Hns' & Hshape).
  exists ns'. split; [exact Hns'|].
  destruct Hshape as [-> | [(values & env & _ & Hv & ->)
                     | [(n & _ & ->) | (n & i & values & now & _ & _ & Hv & ->)]]].
  - exact Htidy.
  - constructor; [apply created_tidy, Hv | exact Htidy].
  - apply Forall_forall. intros m Hm. apply filter_In in Hm.
    rewrite Forall_forall in Htidy. apply Htidy, Hm.
  - apply Forall_forall. intros m Hm. apply in_map_iff in Hm.
    destruct Hm as (m0 & <- & Hin). rewrite Forall_forall in Htidy.
    destruct (has_id (Note.id n) m0); [apply edit_tidy, Hv | apply Htidy, Hin].
Qed.

Lemma step_keeps_notes_tidy_witness :
  Forall tidy [Sample.taxes] /\
  exists ns',
    List.map note_js [created Sample.env Sample.values; Sample.taxes]
    = List.map note_js ns' /\
    Forall tidy ns'.
Proof.
  assert (Ht : Forall tidy [Sample.taxes]).
  { constructor; [|constructor]. unfold tidy.
    repeat split; try (vm_compute; reflexivity). vm_compute. discriminate. }
  split; [exact Ht|].
  apply (step_keeps_notes_tidy toLowerCase_ascii [Sample.taxes] [] true
           JNull (SubmitAdd Sample.values Sample.env)
           (state_of [created Sample.env Sample.values; Sample.taxes]
              [] false JNull) Ht).
  vm_compute. reflexivity.
Defined.

(* ================================================================== *)
(** ** Saving a note that was not changed *)

Lemma NoDup_ids_eq (ns : list Note.t) (a b : Note.t) :
  NoDup (List.map Note.id ns) -> In a ns -> In b ns ->
  Note.id a = Note.id b -> a = b.
Proof.
  induction ns as [|n ns IH]; simpl; intros Hnd Ha Hb Hid; [tauto|].
  inversion Hnd as [|? ? Hnot Hrest]; subst.
  destruct Ha as [<- | Ha]; destruct Hb as [<- | Hb].
  - reflexivity.
  - exfalso. apply Hnot. rewrite Hid. apply in_map. exact Hb.
  - exfalso. apply Hnot. rewrite <- Hid. apply in_map. exact Ha.
  - apply IH; assumption.
Qed.

(** X12: opening the edit form on a note and saving it as it stands is
    not a no-op.  For a note with trimmed fields and a non-empty title, in
    a collection with distinct ids, the form hands over the title and the
    content of the note, and the update changes nothing but [updatedAt]
    of that note, which becomes the clock reading of the save. *)
Theorem save_unchanged_touches_updatedAt :
  forall (n : Note.t) (now : jsstring) (ns : list Note.t)
         (q : jsstring) (adding : bool) (editing : jsval),
    NoDup (List.map Note.id ns) ->
    In n ns ->
    tidy n ->
    exists values,
      NoteForm.handle (NoteForm.mount (Note.title n) (Note.content n))
                      NoteForm.Submit
      = (NoteForm.mount [] [], [NoteForm.OnSubmit values]) /\
      handleUpdate (JStr (Note.id n)) values now
                   (state_of ns q adding editing)
      = Ret (state_of
               (List.map (fun m => if has_id (Note.id n) m
                                   then touch now m else m) ns)
               q adding JNull).
Proof.
  intros n now ns q adding editing Hnd Hin (Ht & Hne & Hc).
  exists (Build_FormValues (Note.title n) (Some (Note.content n))).
  split.
  - unfold NoteForm.handle, NoteForm.submit, NoteForm.mount. simpl.
    rewrite Ht. destruct (JsString.eqb (Note.title n) []) eqn:E;
      [apply eqb_eq in E; contradiction | reflexivity].
  - rewrite handleUpdate_js. do 2 f_equal.
    apply map_ext_in. intros m Hm. unfold has_id.
    destruct (JsString.eqb (Note.id m) (Note.id n)) eqn:E; [|reflexivity].
    apply eqb_eq in E.
    assert (m = n) by (apply (NoDup_ids_eq ns); assumption). subst m.
    unfold edit, touch, trimmed_content. simpl. rewrite Ht, Hc. reflexivity.
Qed.

Lemma save_unchanged_touches_updatedAt_witness :
  NoDup (List.map Note.id [Sample.groceries; Sample.taxes]) /\
  In Sample.taxes [Sample.groceries; Sample.taxes] /\
  tidy Sample.taxes /\
  exists values,
    handleUpdate (JStr (Note.id Sample.taxes)) values Sample.t2
      (state_of [Sample.groceries; Sample.taxes] [] false JNull)
    = Ret (state_of [Sample.groceries; touch Sample.t2 Sample.taxes]
             [] false JNull).
Proof.
  assert (Hnd : NoDup (List.map Note.id [Sample.groceries; Sample.taxes])).
  { constructor; [|constructor; [intros [] | constructor]].
    intros [H | []]. vm_compute in H. discriminate. }
  assert (Hin : In Sample.taxes [Sample.groceries; Sample.taxes])
    by (right; left; reflexivity).
  assert (Ht : tidy Sample.taxes).
  { unfold tidy. repeat split; try (vm_compute; reflexivity).
    vm_compute. discriminate. }
  split; [exact Hnd|]. split; [exact Hin|]. split; [exact Ht|].
  destruct (save_unchanged_touches_updatedAt Sample.taxes Sample.t2
              [Sample.groceries; Sample.taxes] [] false JNull Hnd Hin Ht)
    as (values & _ & Hu).
  exists values. rewrite Hu. vm_compute. reflexivity.
Defined.

(* ================================================================== *)
(** ** One edit form at a time *)

Lemma at_most_one_with_id (s : jsstring) (ns : list Note.t) :
  NoDup (List.map Note.id ns) ->
  length (List.filter (fun n => JsString.eqb s (Note.id n)) ns) <= 1.
Proof.
  induction ns as [|n ns IH]; simpl; intros Hnd; [lia|].
  inversion Hnd as [|? ? Hnot Hrest]; subst.
  destruct (JsString.eqb s (Note.id n)) eqn:E; [|auto].
  apply eqb_eq in E. subst s. simpl.
  assert (H0 : List.filter (fun m => JsString.eqb (Note.id n) (Note.id m)) ns
               = []).
  { clear IH Hnd Hrest. induction ns as [|m ns IHns]; simpl; [reflexivity|].
    destruct (JsString.eqb (Note.id n) (Note.id m)) eqn:E'.
    - apply eqb_eq in E'. exfalso. apply Hnot. left. symmetry. exact E'.
    - apply IHns. intros Hc. apply Hnot. right. exact Hc. }
  rewrite H0. simpl. lia.
Qed.

Lemma filter_false_all {A} (l : list A) :
  List.filter (fun _ : A => false) l = [].
Proof. induction l; simpl; auto. Qed.

Lemma edit_forms_cards (editing : jsval) (view : list Note.t) :
  edit_forms (List.map (card_of editing) view)
  = length (List.filter (fun n => card_editing (card_of editing n)) view).
Proof.
  unfold edit_forms. induction view as [|n view IH]; simpl; [reflexivity|].
  destruct (match editing with
            | JStr s => JsString.eqb s (Note.id n) | _ => false end);
    simpl; rewrite IH; reflexivity.
Qed.

(** X13: when the ids of the collection are pairwise distinct, a render
    shows the edit form on one card at most, whatever [editingId] and the
    query are. *)
Theorem one_edit_form :
  forall (toLowerCase : jsstring -> jsstring) (ns : list Note.t)
         (q : jsstring) (adding : bool) (editing : jsval),
    NoDup (List.map Note.id ns) ->
    exists cards,
      render_cards toLowerCase (state_of ns q adding editing) = Ret cards /\
      edit_forms cards <= 1.
Proof.
  intros lower ns q adding editing Hnd.
  eexists. split; [apply render_cards_js|].
  rewrite edit_forms_cards.
  assert (Hv : NoDup (List.map Note.id (notes_containing lower (trim q) ns)))
    by (apply NoDup_ids_filter; exact Hnd).
  destruct editing; simpl;
    try (rewrite filter_false_all; simpl; lia).
  apply at_most_one_with_id. exact Hv.
Qed.

Lemma one_edit_form_witness :
  NoDup (List.map Note.id [Sample.groceries; Sample.taxes]) /\
  exists cards,
    render_cards toLowerCase_ascii
      (state_of [Sample.groceries; Sample.taxes] [] false
         (JStr (Note.id Sample.taxes))) = Ret cards /\
    edit_forms cards <= 1.
Proof.
  assert (Hnd : NoDup (List.map Note.id [Sample.groceries; Sample.taxes])).
  { constructor; [|constructor; [intros [] | constructor]].
    intros [H | []]. vm_compute in H. discriminate. }
  split; [exact Hnd|].
  apply (one_edit_form toLowerCase_ascii [Sample.groceries; Sample.taxes]
           [] false (JStr (Note.id Sample.taxes)) Hnd).
Defined.

(* ================================================================== *)
(** ** NoteForm *)

Lemma handle_keeps_error_consistent (s : NoteForm.State) (e : NoteForm.Event) :
  NoteForm.error_consistent s ->
  NoteForm.error_consistent (fst (NoteForm.handle s e)).
Proof.
  assert (Hsubmit : NoteForm.error_consistent (fst (NoteForm.submit s))).
  { unfold NoteForm.submit.
    destruct (JsString.eqb (trim (NoteForm.title s)) []) eqn:E; simpl.
    - right. simpl. split; [reflexivity | apply eqb_eq, E].
    - left. reflexivity. }
  intros Hs. destruct e; simpl.
  - left. simpl. destruct (JsString.eqb (NoteForm.error s) []) eqn:E;
      [apply eqb_eq, E | reflexivity].
  - exact Hs.
  - exact Hsubmit.
  - destruct (JsString.eqb key (u "Enter") && (metaKey || ctrlKey));
      [exact Hsubmit | exact Hs].
  - exact Hs.
Qed.

Lemma run_cons (s : NoteForm.State) (e : NoteForm.Event)
  (es : list NoteForm.Event) :
  NoteForm.run s (e :: es) =
  (fst (NoteForm.run (fst (NoteForm.handle s e)) es),
   snd (NoteForm.handle s e)
   ++ snd (NoteForm.run (fst (NoteForm.handle s e)) es)).
Proof.
  cbn [NoteForm.run]. destruct (NoteForm.handle s e) as [s1 c1].
  cbn [fst snd]. destruct (NoteForm.run s1 es) as [s2 c2]. reflexivity.
Qed.

(** X14: whatever the user does in the form, the error message is either
    absent or it is "Title cannot be empty." next to a title that is
    blank: the message is gone as soon as the title is changed, and
    editing the content does not remove it. *)
Theorem form_error_consistent :
  forall (initialTitle initialContent : jsstring)
         (es : list NoteForm.Event),
    NoteForm.error_consistent
      (fst (NoteForm.run (NoteForm.mount initialTitle initialContent) es)) /\
    (forall s value,
       NoteForm.error (fst (NoteForm.handle s (NoteForm.ChangeTitle value)))
       = []) /\
    (forall s value,
       NoteForm.error (fst (NoteForm.handle s (NoteForm.ChangeContent value)))
       = NoteForm.error s).
Proof.
  intros t c es. split; [|split].
  - assert (H : forall s, NoteForm.error_consistent s ->
                NoteForm.error_consistent (fst (NoteForm.run s es))).
    { induction es as [|e es IH]; intros s Hs; [exact Hs|].
      rewrite run_cons. simpl fst.
      apply IH, handle_keeps_error_consistent, Hs. }
    apply H. left. reflexivity.
  - intros s value. simpl.
    destruct (JsString.eqb (NoteForm.error s) []) eqn:E;
      [apply eqb_eq, E | reflexivity].
  - intros s value. reflexivity.
Qed.

(** X15: the form never hands a blank title to its parent, by the button
    or by the keyboard: every [onSubmit] call of any sequence of events
    carries a title that is not empty after trimming, the title and the
    content as typed (not trimmed), and a content that is a string. *)
Theorem form_submits_validated :
  forall (s : NoteForm.State) (es : list NoteForm.Event)
         (values : FormValues),
    In (NoteForm.OnSubmit values) (snd (NoteForm.run s es)) ->
    trim (title values) <> [] /\ content values <> None.
Proof.
  intros s es values. revert s.
  assert (Hsubmit : forall s,
            In (NoteForm.OnSubmit values) (snd (NoteForm.submit s)) ->
            trim (title values) <> [] /\ content values <> None).
  { intros s. unfold NoteForm.submit.
    destruct (JsString.eqb (trim (NoteForm.title s)) []) eqn:E; simpl;
      [tauto|].
    intros [H | []]. injection H as <-. simpl.
    split; [apply eqb_neq, E | discriminate]. }
  induction es as [|e es IH]; intros s; [simpl; tauto|].
  rewrite run_cons. simpl snd. rewrite in_app_iff. intros [H | H].
  - destruct e; simpl in H; try tauto.
    + apply (Hsubmit s H).
    + destruct (JsString.eqb key (u "Enter") && (metaKey || ctrlKey));
        [apply (Hsubmit s H) | simpl in H; tauto].
    + destruct H as [H | []]. discriminate.
  - apply (IH _ H).
Qed.

Lemma form_submits_validated_witness :
  let es := [ NoteForm.Submit;
              NoteForm.ChangeTitle (u " Groceries");
              NoteForm.ChangeContent (u "milk ");
              NoteForm.KeyDown (u "Enter") false true ] in
  let values := Build_FormValues (u " Groceries") (Some (u "milk ")) in
  In (NoteForm.OnSubmit values) (snd (NoteForm.run (NoteForm.mount [] []) es))
  /\ trim (title values) <> [].
Proof.
  intros es values.
  assert (H : In (NoteForm.OnSubmit values)
                 (snd (NoteForm.run (NoteForm.mount [] []) es)))
    by (left; reflexivity).
  split; [exact H|].
  apply (form_submits_validated (NoteForm.mount [] []) es values H).
Defined.

(* ================================================================== *)
(** ** NoteView and EmptyState *)

Lemma truncated_facts {A} (n : nat) (t : list A) (x : A) :
  n < length t ->
  length (firstn n t ++ [x]) = S n /\
  firstn n (firstn n t ++ [x]) = firstn n t.
Proof.
  intros H.
  assert (Hl : length (firstn n t) = n) by (rewrite length_firstn; lia).
  split.
  - rewrite length_app, Hl. simpl. lia.
  - rewrite firstn_app, Hl, Nat.sub_diag. simpl firstn at 2.
    rewrite app_nil_r. rewrite <- Hl at 1. apply firstn_all.
Qed.

(** X16: the preview of a note's content is absent for an empty content,
    is the content itself up to 240 code units, and is otherwise its first
    240 code units followed by one ellipsis character: never more than 241
    code units. *)
Theorem preview_bounds :
  forall s : jsstring,
    exists r,
      preview (JStr s) = Ret r /\
      (r = None <-> s = []) /\
      (forall p, r = Some p ->
         length p <= 241 /\
         firstn 240 p = firstn 240 s /\
         (length s <= 240 -> p = s) /\
         (240 < length s -> p = firstn 240 s ++ [8230%N])).
Proof.
  intros s. destruct s as [|c s].
  - exists None. split; [reflexivity|]. split; [tauto | discriminate].
  - remember (c :: s) as t eqn:Ht.
    exists (Some (if (240 <? length t)%nat
                  then firstn 240 t ++ [8230%N] else t)).
    split; [subst t; reflexivity|].
    split; [split; [discriminate | subst t; discriminate]|].
    intros p Hp.
    assert (Hp' : (if (240 <? length t)%nat
                   then firstn 240 t ++ [8230%N] else t) = p) by congruence.
    clear Hp. subst p.
    destruct (240 <? length t)%nat eqn:E.
    + apply Nat.ltb_lt in E.
      destruct (truncated_facts 240 t 8230%N E) as [H1 H2].
      split; [rewrite H1; lia|].
      split; [exact H2|].
      split; [intros H; lia | reflexivity].
    + apply Nat.ltb_ge in E.
      split; [lia|]. split; [reflexivity|].
      split; [reflexivity | intros H; lia].
Qed.

Lemma notes_list_js (toLowerCase : jsstring -> jsstring) (ns : list Note.t)
  (q : jsstring) (adding : bool) (editing : jsval) :
  notes_list toLowerCase (state_of ns q adding editing) =
  Ret (match notes_containing toLowerCase (trim q) ns with
       | [] => ShowEmptyState (EmptyState q)
       | n :: view =>
           ShowCards (List.map (card_of editing) (n :: view))
       end).
Proof.
  unfold notes_list. rewrite render_cards_js. simpl bind.
  destruct (notes_containing toLowerCase (trim q) ns); reflexivity.
Qed.

(** X17: the list shows the welcome message exactly when the collection
    is empty and the query is the empty string.  With any other query,
    also one of white space only, an empty view shows "No notes found":
    so does an empty collection, although a blank query filters
    nothing.  [toLowerCase] maps the empty string to itself. *)
Theorem empty_state_variant :
  forall (toLowerCase : jsstring -> jsstring),
    toLowerCase [] = [] ->
    forall (ns : list Note.t) (q : jsstring) (adding : bool)
           (editing : jsval),
      let shown := notes_list toLowerCase (state_of ns q adding editing) in
      (shown = Ret (ShowEmptyState Welcome) <-> ns = [] /\ q = []) /\
      (shown = Ret (ShowEmptyState NoNotesFound) <->
       q <> [] /\ notes_containing toLowerCase (trim q) ns = []) /\
      (ns = [] -> q <> [] -> shown = Ret (ShowEmptyState NoNotesFound)).
Proof.
  intros lower Hempty ns q adding editing shown. unfold shown.
  rewrite notes_list_js.
  assert (Hvariant : EmptyState q = Welcome <-> q = []).
  { unfold EmptyState; simpl. destruct q; simpl; split;
      try reflexivity; discriminate. }
  assert (Hother : EmptyState q = NoNotesFound <-> q <> []).
  { unfold EmptyState; simpl. destruct q; simpl; split;
      try discriminate; try reflexivity; congruence. }
  split; [|split].
  - split.
    + destruct (notes_containing lower (trim q) ns) as [|n view] eqn:Ev;
        [|discriminate].
      intros H. injection H as H. apply Hvariant in H. subst q.
      split; [|reflexivity].
      unfold notes_containing, contains_ci in Ev.
      change (trim []) with (@nil N) in Ev. rewrite Hempty in Ev.
      rewrite filter_all in Ev; [exact Ev|].
      intros n. rewrite includes_empty. reflexivity.
    + intros [-> ->]. reflexivity.
  - split.
    + destruct (notes_containing lower (trim q) ns) as [|n view];
        [|discriminate].
      intros H. injection H as H. apply Hother in H. split; [exact H|reflexivity].
    + intros [Hq ->]. apply Hother in Hq. rewrite Hq. reflexivity.
  - intros -> Hq. apply Hother in Hq. simpl. rewrite Hq. reflexivity.
Qed.

Lemma empty_state_variant_witness :
  toLowerCase_ascii [] = [] /\
  notes_list toLowerCase_ascii (state_of [] (u "   ") false JNull)
  = Ret (ShowEmptyState NoNotesFound).
Proof.
  split; [reflexivity|].
  destruct (empty_state_variant toLowerCase_ascii eq_refl
              [] (u "   ") false JNull) as (_ & _ & H).
  apply H; [reflexivity | discriminate].
Defined.

(* ================================================================== *)
(** ** Storage at startup and after a change *)

(** X18: the persist effect never throws.  When the host refuses the
    write, or [JSON.stringify] throws, the storage is left exactly as it
    was; otherwise only the value under the key changes, to the text of
    the collection. *)
Theorem persist_effect_cases :
  forall (JSON_stringify : jsval -> outcome jsstring)
         (st : AppState) (ls : LocalStorage),
    let result := persist_effect JSON_stringify st ls in
    result <> Throw /\
    (JSON_stringify (JArr (notes st)) = Throw -> result = Ret ls) /\
    (forall text,
       JSON_stringify (JArr (notes st)) = Ret text ->
       (setItem_throws ls = true -> result = Ret ls) /\
       (setItem_throws ls = false ->
        result = Ret {| notes_app__notes := Some text;
                        getItem_throws := getItem_throws ls;
                        setItem_throws := setItem_throws ls |})).
Proof.
  intros stringify st ls result. unfold result, persist_effect, setItem.
  destruct (stringify (JArr (notes st))) as [text| |]; simpl.
  - destruct (setItem_throws ls); simpl.
    + split; [discriminate|]. split; [discriminate|].
      intros t Ht. injection Ht as <-. split; [reflexivity | discriminate].
    + split; [discriminate|]. split; [discriminate|].
      intros t Ht. injection Ht as <-. split; [discriminate | reflexivity].
  - split; [discriminate|]. split; [reflexivity|]. discriminate.
  - split; [discriminate|]. split; discriminate.
Qed.

Section StartupFacts.

Variable JSON_parse : jsstring -> outcome jsval.
Variable JSON_stringify : jsval -> outcome jsstring.

(** The hydration effect adopts the array that [hydrated_array] finds. *)
Lemma hydration_effect_adopts (ls : LocalStorage) (st : AppState) :
  hydration_effect JSON_parse ls st =
  (adopted <- hydrated_array JSON_parse ls ;;
   Ret (match adopted with
        | Some items => setNotes (fun _ => items) st
        | None => st
        end)).
Proof.
  unfold hydration_effect, hydrated_array, getItem.
  destruct (getItem_throws ls); [reflexivity|]. simpl.
  destruct (notes_app__notes ls) as [[|c rest]|]; try reflexivity.
  destruct (JSON_parse (c :: rest)) as [v| |]; try reflexivity.
  destruct v; reflexivity.
Qed.

End StartupFacts.



(* ================================================================== *)
(** ** The handlers on elements that are not notes *)

Lemma lookup_set_prop_same (k : jsstring) (v : jsval)
  (props : list (jsstring * jsval)) :
  lookup k (set_prop k v props) = v.
Proof.
  induction props as [|[k' v'] props IH]; simpl.
  - rewrite eqb_refl. reflexivity.
  - destruct (JsString.eqb k k') eqn:E; simpl.
    + rewrite eqb_refl. reflexivity.
    + rewrite E. exact IH.
Qed.

Lemma lookup_set_prop_other (k k0 : jsstring) (v : jsval)
  (props : list (jsstring * jsval)) :
  k0 <> k -> lookup k0 (set_prop k v props) = lookup k0 props.
Proof.
  intros Hne. induction props as [|[k' v'] props IH]; simpl.
  - apply eqb_neq in Hne. rewrite Hne. reflexivity.
  - destruct (JsString.eqb k k') eqn:E; simpl.
    + apply eqb_eq in E. subst k'.
      apply eqb_neq in Hne. rewrite Hne. reflexivity.
    + destruct (JsString.eqb k0 k'); [reflexivity | exact IH].
Qed.

(** X20: an update of a stored object sets its [title], [content] and
    [updatedAt] and keeps every other property it has, [id] and
    [createdAt] as well as properties that are not part of a note. *)
Theorem update_keeps_other_properties :
  forall (props : list (jsstring * jsval)) (values : FormValues)
         (now k : jsstring),
    let n' := updated_note (JObj props) values now in
    get n' (u "title") = Ret (JStr (trim (title values))) /\
    get n' (u "content") = Ret (JStr (trimmed_content values)) /\
    get n' (u "updatedAt") = Ret (JStr now) /\
    (k <> u "title" -> k <> u "content" -> k <> u "updatedAt" ->
     get n' k = get (JObj props) k).
Proof.
  intros props values now k n'. unfold n', updated_note, get.
  split; [|split; [|split]].
  - rewrite (lookup_set_prop_other (u "updatedAt") (u "title"))
      by (apply eqb_neq; reflexivity).
    rewrite (lookup_set_prop_other (u "content") (u "title"))
      by (apply eqb_neq; reflexivity).
    rewrite lookup_set_prop_same. reflexivity.
  - rewrite (lookup_set_prop_other (u "updatedAt") (u "content"))
      by (apply eqb_neq; reflexivity).
    rewrite lookup_set_prop_same. reflexivity.
  - rewrite lookup_set_prop_same. reflexivity.
  - intros H1 H2 H3.
    rewrite (lookup_set_prop_other (u "updatedAt") k) by exact H3.
    rewrite (lookup_set_prop_other (u "content") k) by exact H2.
    rewrite (lookup_set_prop_other (u "title") k) by exact H1.
    reflexivity.
Qed.

Lemma updater_on_element (id : jsstring) (n : jsval) :
  (nid <- get n (u "id") ;; strict_eq nid (JStr id)) =
  if nullish n then Throw
  else Ret (match n with
            | JObj props =>
                match lookup (u "id") props with
                | JStr s => JsString.eqb s id
                | _ => false
                end
            | _ => false
            end).
Proof.
  destruct n; simpl; try reflexivity.
  destruct (lookup (u "id") props); reflexivity.
Qed.

(** X21: on a collection that holds [null] (or [undefined]) the updaters
    of [handleUpdate] and [handleDelete] throw, whatever the id; on every
    other collection they return, the update with a collection of the
    same length and the deletion with a subsequence. *)
Theorem updaters_throw_on_null :
  forall (id : jsstring) (values : FormValues) (now : jsstring)
         (ns : list jsval),
    if existsb nullish ns
    then update_notes (JStr id) values now ns = Throw /\
         remove_notes (JStr id) ns = Throw
    else exists updated kept,
           update_notes (JStr id) values now ns = Ret updated /\
           length updated = length ns /\
           remove_notes (JStr id) ns = Ret kept /\
           Subseq kept ns.
Proof.
  intros id values now ns. unfold update_notes, remove_notes.
  induction ns as [|n ns IH]; simpl.
  - exists [], []. repeat split; constructor.
  - assert (Hrest :
      forall (b : bool) (n' : jsval),
        if existsb nullish ns
        then (bs <- mapM (fun n0 =>
                      nid <- get n0 (u "id") ;;
                      same <- strict_eq nid (JStr id) ;;
                      Ret (if same then updated_note n0 values now else n0))
                    ns ;; Ret (n' :: bs)) = Throw /\
             (rest <- filterM (fun n0 =>
                        nid <- get n0 (u "id") ;;
                        same <- strict_eq nid (JStr id) ;;
                        Ret (negb same)) ns ;;
              Ret (if b then n :: rest else rest)) = Throw
        else exists updated kept,
               (bs <- mapM (fun n0 =>
                        nid <- get n0 (u "id") ;;
                        same <- strict_eq nid (JStr id) ;;
                        Ret (if same then updated_note n0 values now else n0))
                      ns ;; Ret (n' :: bs)) = Ret updated /\
               length updated = S (length ns) /\
               (rest <- filterM (fun n0 =>
                          nid <- get n0 (u "id") ;;
                          same <- strict_eq nid (JStr id) ;;
                          Ret (negb same)) ns ;;
                Ret (if b then n :: rest else rest)) = Ret kept /\
               Subseq kept (n :: ns)).
    { intros b n'. destruct (existsb nullish ns).
      - destruct IH as [-> ->]. split; reflexivity.
      - destruct IH as (updated & kept & -> & Hlen & -> & Hsub). simpl.
        eexists; eexists. split; [reflexivity|].
        split; [simpl; rewrite Hlen; reflexivity|].
        split; [reflexivity|].
        destruct b; constructor; exact Hsub. }
    destruct n; simpl; try (split; reflexivity);
      try (apply (Hrest true)).
    destruct (lookup (u "id") props); simpl; try (apply (Hrest true)).
    destruct (JsString.eqb s id); simpl;
      [apply (Hrest false) | apply (Hrest true)].
Qed.
